(** * ElastiQuill: the blog-comments service

    A shallow embedding of the comments service of the backend
    (createComment, getComments, deletePostComments, deleteComment,
    getStats, getAllComments) together with the parts of its
    collaborators the service relies on: the Joi validator, the
    Elasticsearch client and the blog-posts service. *)

From Stdlib Require Import List String Ascii ZArith Lia Bool PeanoNat.
From Stdlib Require Import Permutation DecimalString.
From Stdlib Require DecimalZ.
Import ListNotations.
Local Open Scope string_scope.
Local Open Scope list_scope.

Set Implicit Arguments.

(** ** JavaScript values held by scalar fields *)

(** The scalar values a JSON request body can put in a field; [JUndef]
    stands for a key that is absent from the object. *)
Inductive jsval : Type :=
| JUndef
| JNull
| JBool (b : bool)
| JNum (z : Z)
| JStr (s : string).

(** ToBoolean. *)
Definition truthy (v : jsval) : bool :=
  match v with
  | JUndef | JNull => false
  | JBool b => b
  | JNum z => negb (Z.eqb z 0)
  | JStr s => negb (String.eqb s "")
  end.

(** The prefix operator [!]. *)
Definition js_not (v : jsval) : bool := negb (truthy v).

(** ** Comments *)

Record Author : Type := mkAuthor {
  name : string;
  email : string;
  website : option string          (* optional key *)
}.

(** A node of a thread as it is stored in the index and handed to the
    listing, with the keys createComment gives it.  [replies = None] is
    a node without a [replies] key; [id] is the key the listing adds to
    a root from the hit's [_id]. *)
#[warnings="-register-all"]
Inductive Comment : Type := mkComment {
  post_id : string;
  author : Author;
  content : string;
  user_host_address : string;
  user_agent : string;
  comment_id : string;
  approved : bool;
  spam : jsval;
  published_at : string;
  replies : option (list Comment);
  id : option string
}.

(** [{ ...c, replies: rs }] *)
Definition with_replies (c : Comment) (rs : list Comment) : Comment :=
  mkComment (post_id c) (author c) (content c) (user_host_address c)
            (user_agent c) (comment_id c) (approved c) (spam c)
            (published_at c) (Some rs) (id c).

(** [{ ...c, id: i }] *)
Definition with_id (c : Comment) (i : string) : Comment :=
  mkComment (post_id c) (author c) (content c) (user_host_address c)
            (user_agent c) (comment_id c) (approved c) (spam c)
            (published_at c) (replies c) (Some i).

(** [c.replies || []]: an array, even an empty one, is truthy. *)
Definition replies_or_empty (c : Comment) : list Comment :=
  match replies c with
  | Some rs => rs
  | None => []
  end.

(** Structural induction that also reaches the nodes below [replies]. *)
Section CommentInduction.
Variable P : Comment -> Prop.
Hypothesis step :
  forall c, Forall P (replies_or_empty c) -> P c.

Fixpoint Comment_nested_ind (c : Comment) : P c :=
  step c
    (match c as c0 return Forall P (replies_or_empty c0) with
     | mkComment _ _ _ _ _ _ _ _ _ rs _ =>
         match rs as o
               return Forall P (match o with Some l => l | None => [] end)
         with
         | None => Forall_nil P
         | Some l =>
             (fix all (l : list Comment) : Forall P l :=
                match l with
                | [] => Forall_nil P
                | x :: r => Forall_cons x (Comment_nested_ind x) (all r)
                end) l
         end
     end).
End CommentInduction.

(** ** The visibility filter (inside getComments)

    [comments.filter(c => c.approved).map(c => ({ ...c, replies:
    filterNotApproved(c.replies || []) }))].  The recursion goes through
    the array methods; it is written here as one pass over the array
    that tests [approved] and rebuilds the kept node, and
    [filterNotApproved_unfold] below gives back the filter-then-map
    reading of the source. *)
Fixpoint filterNode (c : Comment) : Comment :=
  with_replies c
    match replies c with
    | None => []
    | Some rs =>
        (fix pass (cs : list Comment) : list Comment :=
           match cs with
           | [] => []
           | x :: r => if approved x then filterNode x :: pass r else pass r
           end) rs
    end.

Definition filterNotApproved (comments : list Comment) : list Comment :=
  map filterNode (filter approved comments).

(** ** The argument of createComment and its Joi schema *)

(** The request body as the caller hands it over: every key holds
    whatever JSON scalar the caller put there, and keys the schema does
    not name are listed by name.  The [author] key holds a scalar or an
    object.  (A string holding the JSON text of an object, which Joi
    would parse, and a top-level argument that is not an object are left
    out of the model.) *)
Module Arg.
Record Author : Type := mkAuthor {
  name : jsval;
  email : jsval;
  website : jsval;
  author_unknown : list string
}.

Inductive AuthorVal : Type :=
| AuthorScalar (v : jsval)
| AuthorObject (a : Author).

Record Comment : Type := mkComment {
  recipient_path : jsval;
  post_id : jsval;
  author : AuthorVal;
  content : jsval;
  user_host_address : jsval;
  user_agent : jsval;
  spam : jsval;
  unknown : list string
}.
End Arg.

(** What the service takes from its libraries without fixing it: the
    address syntax [Joi.string().email()] accepts, and the strings
    [Joi.boolean()] converts (["true"] and ["false"], in some releases
    in any letter case or with more spellings). *)
Class JoiLib : Type := {
  string_email : string -> bool;
  boolean_string : string -> bool
}.

(** One entry of a Joi error's [details]. *)
Record ErrorItem : Type := mkErrorItem {
  detail_path : list string;
  detail_type : string
}.

Section Joi.
Context {joi : JoiLib}.

Definition item (p : list string) (t : string) : list ErrorItem :=
  [mkErrorItem p t].

(** [Joi.string().required()], with [.allow(null)] when [allow_null]
    and [.email()] when [is_email].  The empty string is not a valid
    [Joi.string()]. *)
Definition string_required (allow_null is_email : bool)
           (p : list string) (v : jsval) : list ErrorItem :=
  match v with
  | JUndef => item p "any.required"
  | JNull => if allow_null then [] else item p "string.base"
  | JStr s =>
      if String.eqb s "" then item p "any.empty"
      else if is_email && negb (string_email s)
           then item p "string.email" else []
  | _ => item p "string.base"
  end.

(** [Joi.string().allow('')]: an optional key. *)
Definition string_allow_empty (p : list string) (v : jsval)
  : list ErrorItem :=
  match v with
  | JUndef | JStr _ => []
  | _ => item p "string.base"
  end.

(** [Joi.boolean().allow(null).required()]. *)
Definition boolean_allow_null_required (p : list string) (v : jsval)
  : list ErrorItem :=
  match v with
  | JUndef => item p "any.required"
  | JNull | JBool _ => []
  | JStr s => if boolean_string s then [] else item p "boolean.base"
  | JNum _ => item p "boolean.base"
  end.

(** Keys outside the schema: [allowUnknown] is off. *)
Definition not_allowed (p : list string) (ks : list string)
  : list ErrorItem :=
  map (fun k => mkErrorItem (p ++ [k]) "object.allowUnknown") ks.

(** The [author] sub-schema, [Joi.object().keys({...}).required()]. *)
Definition author_schema (v : Arg.AuthorVal) : list ErrorItem :=
  match v with
  | Arg.AuthorScalar JUndef => item ["author"] "any.required"
  | Arg.AuthorScalar _ => item ["author"] "object.base"
  | Arg.AuthorObject a =>
      string_required false false ["author"; "name"] (Arg.name a)
      ++ string_required false true ["author"; "email"] (Arg.email a)
      ++ string_allow_empty ["author"; "website"] (Arg.website a)
      ++ not_allowed ["author"] (Arg.author_unknown a)
  end.

(** [CreateCommentArgSchema]: every violation of the argument, keys in
    the order of the schema and unknown keys last. *)
Definition CreateCommentArgSchema (c : Arg.Comment) : list ErrorItem :=
  string_required true false ["recipient_path"] (Arg.recipient_path c)
  ++ string_required false false ["post_id"] (Arg.post_id c)
  ++ author_schema (Arg.author c)
  ++ string_required false false ["content"] (Arg.content c)
  ++ string_required false false ["user_host_address"]
       (Arg.user_host_address c)
  ++ string_required false false ["user_agent"] (Arg.user_agent c)
  ++ boolean_allow_null_required ["spam"] (Arg.spam c)
  ++ not_allowed [] (Arg.unknown c).

(** [Joi.validate(value, schema, options)]: the [error] of the result,
    [None] for null.  With [abortEarly] validation stops at the first
    violation; without it every violation is reported. *)
Definition Joi_validate (abortEarly : bool)
           (violations : list ErrorItem) : option (list ErrorItem) :=
  match violations with
  | [] => None
  | e :: rest => Some (if abortEarly then [e] else e :: rest)
  end.

(** Joi's default options: [abortEarly: true]. *)
Definition Joi_defaults_abortEarly : bool := true.
End Joi.

(** ** The recipient path

    [JSON.parse(recipientId)] followed by the destructuring
    [[documentId, ...repliesIndices]].  The model reads the texts
    [JSON.stringify] gives for an array of a document id and integer
    indices, ["id",i1,...,in]; any other text counts as a parse
    failure. *)

Definition dquote : ascii := "034"%char.
Definition backslash : ascii := "092"%char.

Fixpoint split_commas (s : string) : list string :=
  match s with
  | EmptyString => [EmptyString]
  | String c r =>
      if Ascii.eqb c ","%char then EmptyString :: split_commas r
      else match split_commas r with
           | [] => [String c EmptyString]
           | p :: ps => String c p :: ps
           end
  end.

Definition plain_char (c : ascii) : bool :=
  negb (Ascii.eqb c dquote) && negb (Ascii.eqb c backslash)
  && (32 <=? nat_of_ascii c)%nat && (nat_of_ascii c <? 127)%nat.

Fixpoint quoted_tail (s : string) : option string :=
  match s with
  | EmptyString => None
  | String c EmptyString => if Ascii.eqb c dquote then Some EmptyString else None
  | String c r =>
      if plain_char c then option_map (String c) (quoted_tail r) else None
  end.

(** A JSON string literal without escapes, and not the empty one. *)
Definition string_literal (s : string) : option string :=
  match s with
  | String c r =>
      if Ascii.eqb c dquote then
        match quoted_tail r with
        | Some EmptyString => None
        | o => o
        end
      else None
  | EmptyString => None
  end.

Definition digit (c : ascii) : option Z :=
  let n := nat_of_ascii c in
  if ((48 <=? n) && (n <=? 57))%nat then Some (Z.of_nat (n - 48)) else None.

Fixpoint digits (acc : Z) (s : string) : option Z :=
  match s with
  | EmptyString => Some acc
  | String c r =>
      match digit c with
      | Some d => digits (10 * acc + d) r
      | None => None
      end
  end.

(** The integers a JavaScript number holds exactly. *)
Definition safe_integer (z : Z) : option Z :=
  if (Z.abs z <=? 9007199254740991)%Z then Some z else None.

(** A JSON integer literal: [0], or an optional minus sign and digits
    that do not start with [0]. *)
Definition integer_digits (s : string) : option Z :=
  match s with
  | EmptyString => None
  | String c EmptyString => digit c
  | String c r =>
      if Ascii.eqb c "-"%char then
        match r with
        | String d _ =>
            if Ascii.eqb d "0"%char then None
            else option_map Z.opp (digits 0 r)
        | EmptyString => None
        end
      else if Ascii.eqb c "0"%char then None
      else digits 0 s
  end.

Definition integer_literal (s : string) : option Z :=
  match integer_digits s with
  | Some z => safe_integer z
  | None => None
  end.

Fixpoint all_some {A : Type} (l : list (option A)) : option (list A) :=
  match l with
  | [] => Some []
  | None :: _ => None
  | Some a :: r => option_map (cons a) (all_some r)
  end.

(** Text between the brackets of an array literal. *)
Fixpoint before_bracket (s : string) : option string :=
  match s with
  | EmptyString => None
  | String c EmptyString =>
      if Ascii.eqb c "]"%char then Some EmptyString else None
  | String c r => option_map (String c) (before_bracket r)
  end.

Definition parse_recipient_path (s : string) : option (string * list Z) :=
  match s with
  | String c r =>
      if Ascii.eqb c "["%char then
        match before_bracket r with
        | Some inner =>
            match split_commas inner with
            | first :: rest =>
                match string_literal first,
                      all_some (map integer_literal rest) with
                | Some documentId, Some repliesIndices =>
                    Some (documentId, repliesIndices)
                | _, _ => None
                end
            | [] => None
            end
        | None => None
        end
      else None
  | EmptyString => None
  end.

(** The double quote as a one-character text, to write paths down. *)
Definition quote_mark : string := String dquote EmptyString.

(** ** Elasticsearch: the comments index

    The client calls the service makes, over an index that exists.  The
    index is the sequence of its documents in the order they were
    indexed; [writes] records every writing request the service sent. *)

Record Hit : Type := mkHit {
  _id : string;
  _source : Comment
}.

Inductive WriteOp : Type :=
| Index (body : Comment)
| Update (id : string) (doc : Comment)
| Delete (id : string)
| DeleteByQuery (post : string).

(** A post of the blog-posts index: its id and the rest of its keys. *)
Module Post.
Record t : Type := mk {
  id : string;
  fields : list (string * string)
}.
End Post.

Record ES : Type := mkES {
  docs : list Hit;
  posts : list Post.t;
  writes : list WriteOp
}.

Inductive error : Type :=
| ValidationError (details : list ErrorItem)   (* Joi *)
| SyntaxError                                  (* JSON.parse *)
| TypeError                                    (* a key read on undefined *)
| NotFound (id : string)                       (* a 404 of the client *)
| BadRequest.                                  (* a 400 of the client *)

(** How a call ends: a value, an exception, or a loop still running
    when the model's fuel is spent. *)
Inductive outcome (A : Type) : Type :=
| Ok (a : A)
| Throw (e : error)
| OutOfFuel.
Arguments Ok {A} a.
Arguments Throw {A} e.
Arguments OutOfFuel {A}.

(** An async function over the index. *)
Definition M (A : Type) : Type := ES -> outcome A * ES.

Definition ret {A : Type} (a : A) : M A := fun st => (Ok a, st).
Definition throw {A : Type} (e : error) : M A := fun st => (Throw e, st).
Definition bind {A B : Type} (m : M A) (k : A -> M B) : M B :=
  fun st =>
    match m st with
    | (Ok a, st') => k a st'
    | (Throw e, st') => (Throw e, st')
    | (OutOfFuel, st') => (OutOfFuel, st')
    end.

Declare Scope es_scope.
Delimit Scope es_scope with es.
Notation "x <- m ;; k" := (bind m (fun x => k))
  (at level 61, m at next level, right associativity) : es_scope.
Local Open Scope es_scope.

(** *** Document requests *)

(** What a response object holds under a key. *)
Inductive rval : Type :=
| RStr (s : string)
| RNum (n : nat)
| RBool (b : bool)
| RDoc (c : Comment).

Definition Response : Type := list (string * rval).

(** [resp.key]; [None] is undefined. *)
Fixpoint prop (resp : Response) (key : string) : option rval :=
  match resp with
  | [] => None
  | (k, v) :: r => if String.eqb k key then Some v else prop r key
  end.

(** [resp._source] *)
Definition source_of (resp : Response) : option Comment :=
  match prop resp "_source" with
  | Some (RDoc c) => Some c
  | _ => None
  end.

Definition ES_INDEX : string := "blog-comments".

Definition has_id (i : string) (h : Hit) : bool := String.eqb (_id h) i.

(** [esClient.get]: the stored document, or a 404. *)
Definition es_get (i : string) : M Response :=
  fun st =>
    match find (has_id i) (docs st) with
    | Some h =>
        (Ok [("_index", RStr ES_INDEX); ("_type", RStr "_doc");
             ("_id", RStr i); ("found", RBool true);
             ("_source", RDoc (_source h))], st)
    | None => (Throw (NotFound i), st)
    end.

(** [esClient.index] without an id: the document is stored under the id
    the index generates ([new_id]); the response names the document and
    does not repeat it. *)
Definition es_index (new_id : string) (body : Comment) : M Response :=
  fun st =>
    (Ok [("_index", RStr ES_INDEX); ("_type", RStr "_doc");
         ("_id", RStr new_id); ("_version", RNum 1);
         ("result", RStr "created")],
     mkES (docs st ++ [mkHit new_id body]) (posts st)
          (writes st ++ [Index body])).

Definition replace_doc (i : string) (doc : Comment) (h : Hit) : Hit :=
  if has_id i h then mkHit i doc else h.

(** [esClient.update] with [body: { doc }]: [doc] is merged into the
    stored document, key by key, an array replacing the stored array.
    The service sends the stored document with one array grown, so the
    merge is the document sent. *)
Definition es_update (i : string) (doc : Comment) : M Response :=
  fun st =>
    match find (has_id i) (docs st) with
    | Some _ =>
        (Ok [("_index", RStr ES_INDEX); ("_type", RStr "_doc");
             ("_id", RStr i); ("result", RStr "updated")],
         mkES (map (replace_doc i doc) (docs st)) (posts st)
              (writes st ++ [Update i doc]))
    | None => (Throw (NotFound i), st)
    end.

(** [esClient.delete] *)
Definition es_delete (i : string) : M Response :=
  fun st =>
    match find (has_id i) (docs st) with
    | Some _ =>
        (Ok [("_index", RStr ES_INDEX); ("_type", RStr "_doc");
             ("_id", RStr i); ("result", RStr "deleted")],
         mkES (filter (fun h => negb (has_id i h)) (docs st)) (posts st)
              (writes st ++ [Delete i]))
    | None => (Throw (NotFound i), st)
    end.

(** *** Queries *)

Inductive Clause : Type :=
| term_post_id (v : string)
| terms_post_id (vs : list string)
| term_approved (b : bool)
| must_not_term_spam (b : bool)
| range_published_at_gte (d : string).

Inductive Query : Type :=
| match_all
| bool_filter (filters : list Clause).

Definition mem_string (s : string) (l : list string) : bool :=
  existsb (String.eqb s) l.

(** A boolean field holds the term [b]. *)
Definition term_bool (v : jsval) (b : bool) : bool :=
  match v with
  | JBool x => Bool.eqb x b
  | _ => false
  end.

(** The range is taken on the ISO text of the two dates. *)
Definition clause_matches (c : Comment) (f : Clause) : bool :=
  match f with
  | term_post_id v => String.eqb (post_id c) v
  | terms_post_id vs => mem_string (post_id c) vs
  | term_approved b => Bool.eqb (approved c) b
  | must_not_term_spam b => negb (term_bool (spam c) b)
  | range_published_at_gte d => String.leb d (published_at c)
  end.

Definition matches (q : Query) (h : Hit) : bool :=
  match q with
  | match_all => true
  | bool_filter fs => forallb (clause_matches (_source h)) fs
  end.

(** [esClient.deleteByQuery]: every matching document goes; the response
    counts them. *)
Definition es_deleteByQuery (post : string) : M Response :=
  fun st =>
    let q := bool_filter [term_post_id post] in
    (Ok [("deleted", RNum (List.length (filter (matches q) (docs st))));
         ("total", RNum (List.length (filter (matches q) (docs st))))],
     mkES (filter (fun h => negb (matches q h)) (docs st)) (posts st)
          (writes st ++ [DeleteByQuery post])).

(** [esClient.count] *)
Definition es_count (q : Query) : M nat :=
  fun st => (Ok (List.length (filter (matches q) (docs st))), st).

(** *** Search, scroll and aggregations *)

Inductive SortOrder : Type := asc | desc.

(** [sort: [{ published_at: { order } }]] *)
Definition sorts_before (o : SortOrder) (a b : Hit) : bool :=
  match o with
  | asc => String.leb (published_at (_source a)) (published_at (_source b))
  | desc => String.leb (published_at (_source b)) (published_at (_source a))
  end.

Fixpoint insert_hit (o : SortOrder) (h : Hit) (l : list Hit) : list Hit :=
  match l with
  | [] => [h]
  | x :: r => if sorts_before o h x then h :: l else x :: insert_hit o h r
  end.

Definition sort_hits (o : option SortOrder) (l : list Hit) : list Hit :=
  match o with
  | Some ord => fold_right (insert_hit ord) [] l
  | None => l
  end.

Record Bucket : Type := mkBucket {
  key : string;
  doc_count : nat
}.

Definition has_post (p : string) (h : Hit) : bool :=
  String.eqb (post_id (_source h)) p.

(** The values of a field, each once, in the order they are met. *)
Fixpoint distinct (l : list string) : list string :=
  match l with
  | [] => []
  | x :: r => x :: filter (fun y => negb (String.eqb y x)) (distinct r)
  end.

(** Buckets come by falling count, keys rising among equal counts. *)
Definition bucket_before (a b : Bucket) : bool :=
  (doc_count b <? doc_count a)%nat
  || ((doc_count a =? doc_count b)%nat && String.leb (key a) (key b)).

Fixpoint insert_bucket (b : Bucket) (l : list Bucket) : list Bucket :=
  match l with
  | [] => [b]
  | x :: r => if bucket_before b x then b :: l else x :: insert_bucket b r
  end.

(** [terms: { field: 'post_id', size }] over the matching documents. *)
Definition terms_post_id_agg (size : nat) (matching : list Hit)
  : list Bucket :=
  firstn size
    (fold_right insert_bucket []
       (map (fun k => mkBucket k (List.length (filter (has_post k) matching)))
            (distinct (map (fun h => post_id (_source h)) matching)))).

(** The date arithmetic of [date_histogram] is the server's: from the
    interval and the [published_at] values of the matching documents to
    the buckets. *)
Class EsLib : Type := {
  date_histogram : string -> list string -> list Bucket
}.

Record Aggs : Type := mkAggs {
  post_ids_size : nat;
  comments_histogram_interval : string
}.

Record Aggregations : Type := mkAggregations {
  post_ids : list Bucket;
  comments_histogram : list Bucket
}.

Record SearchBody : Type := mkSearchBody {
  size : option nat;
  query : Query;
  sort : option SortOrder;
  aggs : option Aggs
}.

(** A scroll id names a search context of the server: the page size and
    the hits of the snapshot not yet handed out.  The model lets the id
    carry them; the ten seconds a context lives are not modelled. *)
Record Cursor : Type := mkCursor {
  page_size : nat;
  remaining : list Hit
}.

Record SearchResponse : Type := mkSearchResponse {
  _scroll_id : option Cursor;
  hits : list Hit;
  aggregations : option Aggregations
}.

Definition default_size : nat := 10.

Section Search.
Context {es : EsLib}.

Definition run_aggs (a : Aggs) (matching : list Hit) : Aggregations :=
  mkAggregations
    (terms_post_id_agg (post_ids_size a) matching)
    (date_histogram (comments_histogram_interval a)
       (map (fun h => published_at (_source h)) matching)).

(** [esClient.search]; [scroll] is the request's [scroll: '10s']. *)
Definition es_search (scroll : bool) (body : SearchBody)
  : M SearchResponse :=
  fun st =>
    let n := match size body with Some n => n | None => default_size end in
    let matching := filter (matches (query body)) (docs st) in
    let ordered := sort_hits (sort body) matching in
    if scroll && (n =? 0)%nat then (Throw BadRequest, st)
    else
      (Ok (mkSearchResponse
             (if scroll then Some (mkCursor n (skipn n ordered)) else None)
             (firstn n ordered)
             (option_map (fun a => run_aggs a matching) (aggs body))),
       st).
End Search.

(** [esClient.scroll] *)
Definition es_scroll (scrollId : option Cursor) : M SearchResponse :=
  match scrollId with
  | None => throw BadRequest
  | Some c =>
      ret (mkSearchResponse
             (Some (mkCursor (page_size c)
                             (skipn (page_size c) (remaining c))))
             (firstn (page_size c) (remaining c))
             None)
  end.

(** ** The blog-posts service *)

(** Modelled from the spec: [blogPosts.getItemsByIds] (services/blogPosts)
    is not among the sources.  The spec gives
    [getItemsByIds(ids) -> sequence of Post], the lookup that joins the
    aggregation's post ids against the post store: the stored post of
    each id asked for, in the order asked, an id without a post giving
    nothing. *)
Definition getItemsByIds (ids : list string) : M (list Post.t) :=
  fun st =>
    (Ok (flat_map
           (fun i =>
              match find (fun p => String.eqb (Post.id p) i) (posts st) with
              | Some p => [p]
              | None => []
              end) ids), st).

(** ** References into a fetched document

    [res] in createComment is a reference to an object inside
    [resp._source], or undefined.  A reference is the path of indices
    that leads from the root to the object, so a write through [res] is
    a write into [resp._source], and what the caller later reads through
    [res] is read in the document as it then is. *)

Inductive ref : Type :=
| undefined
| node (path : list nat).

(** [array[i]]: undefined outside the array. *)
Definition array_get {A : Type} (l : list A) (i : Z) : option A :=
  if (i <? 0)%Z then None else nth_error l (Z.to_nat i).

Fixpoint deref (root : Comment) (p : list nat) : option Comment :=
  match p with
  | [] => Some root
  | i :: r =>
      match replies root with
      | None => None
      | Some rs =>
          match nth_error rs i with
          | Some c => deref c r
          | None => None
          end
      end
  end.

Fixpoint update_nth {A : Type} (i : nat) (f : A -> A) (l : list A) : list A :=
  match l, i with
  | [], _ => []
  | x :: r, O => f x :: r
  | x :: r, S j => x :: update_nth j f r
  end.

(** The document after the object at [p] has been changed by [f]. *)
Fixpoint modify (f : Comment -> Comment) (p : list nat) (root : Comment)
  : Comment :=
  match p with
  | [] => f root
  | i :: r =>
      match replies root with
      | None => root
      | Some rs => with_replies root (update_nth i (modify f r) rs)
      end
  end.

(** [res = res.replies[i]] *)
Definition reply_at (root : Comment) (res : ref) (i : Z) : outcome ref :=
  match res with
  | undefined => Throw TypeError
  | node p =>
      match deref root p with
      | None => Throw TypeError
      | Some c =>
          match replies c with
          | None => Throw TypeError
          | Some rs =>
              match array_get rs i with
              | Some _ => Ok (node (p ++ [Z.to_nat i]))
              | None => Ok undefined
              end
          end
      end
  end.

(** [for (var i of repliesIndices) res = res.replies[i]] *)
Fixpoint follow (root : Comment) (res : ref) (repliesIndices : list Z)
  : outcome ref :=
  match repliesIndices with
  | [] => Ok res
  | i :: r =>
      match reply_at root res i with
      | Ok res' => follow root res' r
      | other => other
      end
  end.

(** [res.replies = res.replies || []; res.replies.push(body)] *)
Definition push_reply (body : Comment) (c : Comment) : Comment :=
  with_replies c (replies_or_empty c ++ [body]).

(** ** The service *)

(** What a call takes from outside: the token of [uid(12)], the clock
    of [new Date().toISOString()] and the id the index gives a new
    document. *)
Record Env : Type := mkEnv {
  uid : string;
  now : string;
  new_id : string
}.

Record CreateResult : Type := mkCreateResult {
  newComment : option Comment;          (* None: undefined *)
  repliedToComment : option Comment     (* None: null *)
}.

(** A field the schema has checked to be a string. *)
Definition as_string (v : jsval) : string :=
  match v with
  | JStr s => s
  | _ => ""
  end.

Definition as_author (v : Arg.AuthorVal) : Author :=
  match v with
  | Arg.AuthorObject a =>
      mkAuthor (as_string (Arg.name a)) (as_string (Arg.email a))
               (match Arg.website a with JStr s => Some s | _ => None end)
  | Arg.AuthorScalar _ => mkAuthor "" "" None
  end.

(** [{ ...comment, comment_id: uid(12), approved: !comment.spam,
      spam: comment.spam, published_at: new Date().toISOString() }]
    once [recipient_path] is deleted: the keys of a valid argument and
    the four keys the service sets. *)
Definition make_body (env : Env) (comment : Arg.Comment) : Comment :=
  mkComment (as_string (Arg.post_id comment))
            (as_author (Arg.author comment))
            (as_string (Arg.content comment))
            (as_string (Arg.user_host_address comment))
            (as_string (Arg.user_agent comment))
            (uid env)
            (js_not (Arg.spam comment))
            (Arg.spam comment)
            (now env)
            None None.

Record StatsArg : Type := mkStatsArg {
  startDate : option string;
  postId : option string;
  interval : option string
}.

Record CountedPost : Type := mkCountedPost {
  post : Post.t;
  comments_count : nat
}.

Record Stats : Type := mkStats {
  commentsByDate : list Bucket;
  mostCommentedPosts : list CountedPost;
  recentComments : list Comment;
  commentsCount : nat
}.

Definition given (o : option string) : bool :=
  match o with
  | Some s => negb (String.eqb s "")
  | None => false
  end.

Definition lift {A : Type} (o : outcome A) : M A := fun st => (o, st).

Fixpoint map_m {A B : Type} (f : A -> outcome B) (l : list A)
  : outcome (list B) :=
  match l with
  | [] => Ok []
  | x :: r =>
      match f x with
      | Ok y =>
          match map_m f r with
          | Ok ys => Ok (y :: ys)
          | Throw e => Throw e
          | OutOfFuel => OutOfFuel
          end
      | Throw e => Throw e
      | OutOfFuel => OutOfFuel
      end
  end.

Section Service.
Context {joi : JoiLib} {es : EsLib}.

Definition createComment (env : Env) (comment : Arg.Comment)
  : M CreateResult :=
  match Joi_validate Joi_defaults_abortEarly
                     (CreateCommentArgSchema comment) with
  | Some details => throw (ValidationError details)
  | None =>
      let recipientId := Arg.recipient_path comment in
      let body := make_body env comment in
      if truthy recipientId then
        match parse_recipient_path (as_string recipientId) with
        | None => throw SyntaxError
        | Some (documentId, repliesIndices) =>
            resp <- es_get documentId ;;
            match source_of resp with
            | None => throw TypeError
            | Some root =>
                res <- lift (follow root (node []) repliesIndices) ;;
                match res with
                | undefined => throw TypeError
                | node p =>
                    let root' := modify (push_reply body) p root in
                    _ <- es_update documentId root' ;;
                    ret (mkCreateResult (Some body) (deref root' p))
                end
            end
        end
      else
        resp <- es_index (new_id env) body ;;
        ret (mkCreateResult (source_of resp) None)
  end.

(** The loop of getComments and of getAllComments: while the page has
    hits, keep them and scroll on. *)
Fixpoint scroll_all (fuel : nat) (resp : SearchResponse)
         (allComments : list Hit) : M (list Hit) :=
  match fuel with
  | O => lift OutOfFuel
  | S fuel' =>
      match hits resp with
      | [] => ret allComments
      | page =>
          resp' <- es_scroll (_scroll_id resp) ;;
          scroll_all fuel' resp' (allComments ++ page)
      end
  end.

(** [{ ...h._source, id: h._id }] *)
Definition hit_comment (h : Hit) : Comment := with_id (_source h) (_id h).

Definition getComments (fuel : nat) (postIds : list string)
  : M (list Comment) :=
  resp <- es_search true
            (mkSearchBody None
               (bool_filter [terms_post_id postIds; term_approved true;
                             must_not_term_spam true])
               (Some asc) None) ;;
  allComments <- scroll_all fuel resp [] ;;
  ret (filterNotApproved (map hit_comment allComments)).

Definition deletePostComments (id : string) : M Response :=
  es_deleteByQuery id.

Definition deleteComment (id : string) : M Response :=
  es_delete id.

(** [_.find(postIdsBuckets, ['key', p.id]).doc_count] *)
Definition counted (postIdsBuckets : list Bucket) (p : Post.t)
  : outcome CountedPost :=
  match find (fun b => String.eqb (key b) (Post.id p)) postIdsBuckets with
  | Some b => Ok (mkCountedPost p (doc_count b))
  | None => Throw TypeError
  end.

(** getStats from [let mostCommentedPosts = []] on, the two responses
    in hand. *)
Definition getStats_result (countResp : nat) (resp : SearchResponse)
  : M Stats :=
  match aggregations resp with
  | Some ag =>
      let postIdsBuckets := post_ids ag in
      posts <- getItemsByIds (map key postIdsBuckets) ;;
      mostCommentedPosts <- lift (map_m (counted postIdsBuckets) posts) ;;
      ret (mkStats (comments_histogram ag) mostCommentedPosts
                   (map hit_comment (hits resp)) countResp)
  | None =>
      ret (mkStats [] [] (map hit_comment (hits resp)) countResp)
  end.

Definition stats_query (a : StatsArg) : Query :=
  let filters :=
    (if given (postId a)
     then [term_post_id (match postId a with Some s => s | None => "" end)]
     else [])
    ++ (if given (startDate a)
        then [range_published_at_gte
                (match startDate a with Some s => s | None => "" end)]
        else []) in
  match filters with
  | [] => match_all
  | _ => bool_filter filters
  end.

Definition getStats (a : StatsArg) : M Stats :=
  let query := stats_query a in
  countResp <- es_count query ;;
  resp <- es_search false
            (mkSearchBody (Some 10) query (Some desc)
               (Some (mkAggs 5 (match interval a with
                                | Some i => i
                                | None => "1d"
                                end)))) ;;
  getStats_result countResp resp.

Definition getAllComments (fuel : nat) : M (list Comment) :=
  resp <- es_search true (mkSearchBody None match_all None None) ;;
  items <- scroll_all fuel resp [] ;;
  ret (map hit_comment items).
End Service.

(** ** Vocabulary of the properties *)

(** The [comment_id]s of a node and of everything below it. *)
Fixpoint tree_ids (c : Comment) : list string :=
  comment_id c ::
  match replies c with
  | None => []
  | Some rs =>
      (fix below (l : list Comment) : list string :=
         match l with
         | [] => []
         | x :: r => tree_ids x ++ below r
         end) rs
  end.

Definition forest_ids (f : list Comment) : list string :=
  flat_map tree_ids f.

(** A test that holds of a node and of everything below it. *)
Fixpoint every_node (t : Comment -> bool) (c : Comment) : bool :=
  t c &&
  match replies c with
  | None => true
  | Some rs =>
      (fix below (l : list Comment) : bool :=
         match l with
         | [] => true
         | x :: r => every_node t x && below r
         end) rs
  end.


(** The node a path of indices leads to, read off the stored tree. *)
Fixpoint resolve (c : Comment) (repliesIndices : list Z) : option Comment :=
  match repliesIndices with
  | [] => Some c
  | i :: r =>
      match array_get (replies_or_empty c) i with
      | Some child => resolve child r
      | None => None
      end
  end.

(** The first response of a scrolled search over [ordered] hits. *)
Definition first_page (n : nat) (ordered : list Hit) : SearchResponse :=
  mkSearchResponse (Some (mkCursor n (skipn n ordered))) (firstn n ordered)
                   None.

(** ** Sample data *)

(** A plain reading of what the libraries decide, to run the service on
    examples: an address has an [@], a boolean text is [true] or
    [false], a histogram has one bucket a day. *)
Definition joi_sample : JoiLib :=
  Build_JoiLib
    (fun s => existsb (Ascii.eqb "@"%char) (list_ascii_of_string s))
    (fun s => String.eqb s "true" || String.eqb s "false").

Definition es_sample : EsLib :=
  Build_EsLib
    (fun _ dates =>
       let days := map (fun d => substring 0 10 d) dates in
       map (fun d => mkBucket d (List.length (filter (String.eqb d) days)))
           (distinct days)).

Definition env1 : Env := mkEnv "k3x9q0a7bb2c" "2019-05-02T10:00:00.000Z" "t2".

Definition ann : Arg.AuthorVal :=
  Arg.AuthorObject
    (Arg.mkAuthor (JStr "Ann") (JStr "ann@example.org") JUndef []).

(** A valid argument: [recipient_path] and [spam] as given. *)
Definition arg1 (recipient_path spam : jsval) : Arg.Comment :=
  Arg.mkComment recipient_path (JStr "p1") ann (JStr "Nice post")
                (JStr "10.0.0.7") (JStr "Mozilla/5.0") spam [].

Definition node1 (cid : string) (ok : bool) (rs : option (list Comment))
  : Comment :=
  mkComment "p1" (mkAuthor "Bob" "bob@example.org" None) "First"
            "10.0.0.8" "curl/7.64" cid ok (JBool (negb ok))
            "2019-05-01T09:00:00.000Z" rs None.

(** An index with one thread, [t1], whose root has one reply. *)
Definition es1 : ES :=
  mkES [mkHit "t1" (node1 "c0" true (Some [node1 "c1" true None]))] [] [].

Definition path (id : string) (tail : string) : jsval :=
  JStr ("[" ++ quote_mark ++ id ++ quote_mark ++ tail ++ "]").


(** The root of thread [t1] and its one reply, as [es1] stores them. *)
Definition reply1 : Comment := node1 "c1" true None.
Definition root1 : Comment := node1 "c0" true (Some [reply1]).

(** The query of getComments. *)
Definition listing_query (postIds : list string) : Query :=
  bool_filter [terms_post_id postIds; term_approved true;
               must_not_term_spam true].

(** An index of twelve threads, more than one page of ten. *)
Definition es12 : ES :=
  mkES (map (fun i => mkHit i (node1 i true None))
            ["a01"; "a02"; "a03"; "a04"; "a05"; "a06";
             "a07"; "a08"; "a09"; "a10"; "a11"; "a12"])
       [] [].

(** An index with four threads of post [p1], three approved and one
    spam, and one thread of another post. *)
Definition thread (i post date : string) (ok : bool) : Hit :=
  mkHit i (mkComment post (mkAuthor "Bob" "bob@example.org" None) "Hello"
                     "10.0.0.8" "curl/7.64" i ok (JBool (negb ok)) date
                     None None).

Definition es5 : ES :=
  mkES [thread "u1" "p1" "2019-05-01T09:00:00.000Z" true;
        thread "u2" "p1" "2019-05-03T09:00:00.000Z" false;
        thread "u3" "p2" "2019-05-02T12:00:00.000Z" true;
        thread "u4" "p1" "2019-05-02T09:00:00.000Z" true;
        thread "u5" "p1" "2019-05-01T08:00:00.000Z" true]
       [Post.mk "p1" [("title", "First post")];
        Post.mk "p2" [("title", "Second post")]]
       [].

Definition env2 : Env := mkEnv "m4r7w1z8dd0e" "2019-05-02T11:00:00.000Z" "t3".




(** ** lodash: get, set, trimEnd, over parsed YAML and JSON

    A parsed document is a scalar or a mapping from keys to documents;
    sequences are left out.  A mapping keeps its keys in the order they
    were set, each once. *)

#[warnings="-register-all"]
Inductive json : Type :=
| Scalar (v : jsval)
| Object (fields : list (string * json)).

Fixpoint field (k : string) (fs : list (string * json)) : option json :=
  match fs with
  | [] => None
  | (k', v) :: r => if String.eqb k' k then Some v else field k r
  end.

(** [o[k]] for a key that is a name (no index, not [length]): a scalar
    has no such key. *)
Definition own (o : json) (k : string) : json :=
  match o with
  | Object fs =>
      match field k fs with
      | Some v => v
      | None => Scalar JUndef
      end
  | Scalar _ => Scalar JUndef
  end.

Definition isUndefined (j : json) : bool :=
  match j with
  | Scalar JUndef => true
  | _ => false
  end.

Fixpoint split_on (sep : ascii) (s : string) : list string :=
  match s with
  | EmptyString => [EmptyString]
  | String c r =>
      if Ascii.eqb c sep then EmptyString :: split_on sep r
      else match split_on sep r with
           | [] => [String c EmptyString]
           | p :: ps => String c p :: ps
           end
  end.

(** [castPath] on a path without brackets: its keys are the parts
    between the dots.  (A mapping that has the whole dotted text as one
    of its keys, which lodash then takes as that key, is left out.) *)
Definition castPath (path : string) : list string := split_on "."%char path.

Fixpoint baseGet (o : json) (path : list string) : json :=
  match path with
  | [] => o
  | k :: r =>
      match o with
      | Scalar JUndef | Scalar JNull => Scalar JUndef
      | _ => baseGet (own o k) r
      end
  end.

(** [_.get(object, path)] *)
Definition get (o : json) (path : string) : json := baseGet o (castPath path).

(** [object[key] = value]: a key the object has keeps its place, a new
    key comes last. *)
Fixpoint assign (k : string) (v : json) (fs : list (string * json))
  : list (string * json) :=
  match fs with
  | [] => [(k, v)]
  | (k', v') :: r =>
      if String.eqb k' k then (k, v) :: r else (k', v') :: assign k v r
  end.

(** [baseSet]: on the way to the last key a value that is no object is
    replaced by an empty one. *)
Fixpoint baseSet (path : list string) (value : json) (nested : json) : json :=
  match nested with
  | Object fs =>
      match path with
      | [] => nested
      | [k] => Object (assign k value fs)
      | k :: rest =>
          let objValue := own nested k in
          let newValue := match objValue with
                          | Object _ => objValue
                          | Scalar _ => Object []
                          end in
          Object (assign k (baseSet rest value newValue) fs)
      end
  | Scalar _ => nested
  end.

(** [_.set(object, path, value)]: what is no object is handed back. *)
Definition set (o : json) (path : string) (value : json) : json :=
  baseSet (castPath path) value o.

(** Decimal text of an integer (one JavaScript prints in full, below
    10^21). *)
Definition decimal (z : Z) : string :=
  NilZero.string_of_int (Z.to_int z).

(** lodash's [toString]: nothing for null and undefined. *)
Definition toString (j : json) : string :=
  match j with
  | Scalar JUndef | Scalar JNull => ""
  | Scalar (JBool true) => "true"
  | Scalar (JBool false) => "false"
  | Scalar (JNum z) => decimal z
  | Scalar (JStr s) => s
  | Object _ => "[object Object]"
  end.

Definition char_in (c : ascii) (chars : string) : bool :=
  existsb (Ascii.eqb c) (list_ascii_of_string chars).

(** [_.trimEnd(string, chars)] on the text of [string]: the characters
    of [chars] are taken off its end. *)
Fixpoint trimEnd_text (s chars : string) : string :=
  match s with
  | EmptyString => EmptyString
  | String c r =>
      match trimEnd_text r chars with
      | EmptyString =>
          if char_in c chars then EmptyString else String c EmptyString
      | r' => String c r'
      end
  end.

Definition trimEnd (j : json) (chars : string) : string :=
  trimEnd_text (toString j) chars.

(** [s.endsWith(suffix)]: [suffix] is [s] from some place on. *)
Fixpoint endsWith (s suffix : string) : bool :=
  String.eqb s suffix
  || match s with
     | EmptyString => false
     | String _ r => endsWith r suffix
     end.

(** ** The import route: the two addresses

    The handler of [POST /] starts from [req.body.url]:
    [url = _.trimEnd(req.body.url, "/")] and
    [jsonUrl = url.endsWith(".json") ? url : url + ".json"]; it fetches
    [jsonUrl] and records [url] as the post's canonical address. *)
Definition import_urls (body_url : json) : string * string :=
  let url := trimEnd body_url "/" in
  let jsonUrl :=
    if endsWith url ".json" then url else String.append url ".json" in
  (url, jsonUrl).

(** ** The configuration (config.js) *)

(** [process.env] *)
Definition getenv (penv : list (string * string)) (name : string)
  : option string :=
  match find (fun kv => String.eqb (fst kv) name) penv with
  | Some kv => Some (snd kv)
  | None => None
  end.

(** An entry [[configPath, env, defaultValue]]; [JUndef] for an entry of
    two. *)
Definition Override : Type := string * string * jsval.

Definition envOverrides : list Override :=
  [("elasticsearch.hosts", "ELASTICSEARCH_HOSTS", JStr "localhost:9200");
   ("elasticsearch.blog-index-name", "BLOG_POSTS_INDEX", JStr "blog-posts");
   ("elasticsearch.blog-comments-index-name", "BLOG_COMMENTS_INDEX",
    JStr "blog-comments");
   ("elasticsearch.blog-logs-index-name", "BLOG_LOGS_INDEX", JStr "blog-logs");
   ("elasticsearch.blog-logs-period", "BLOG_LOGS_PERIOD", JStr "daily");
   ("blog.comments-noreply-email", "BLOG_COMMENTS_NOREPLY_EMAIL", JUndef);
   ("blog.comments-post-period", "BLOG_COMMENTS_POST_PERIOD", JNum 60);
   ("blog.title", "BLOG_TITLE", JStr "Sample blog");
   ("blog.description", "BLOG_DESCRIPTION", JStr "Sample description");
   ("blog.url", "BLOG_URL", JStr "http://localhost:5000");
   ("blog.compression", "BLOG_COMPRESSION", JBool false);
   ("blog.cache-ttl", "BLOG_CACHE_TTL", JNum 60);
   ("blog.port", "PORT", JStr "5000");
   ("blog.admin-emails", "BLOG_ADMIN_EMAILS", JUndef);
   ("blog.publisher-emails", "BLOG_PUBLISHER_EMAILS", JUndef);
   ("blog.contact-email", "CONTACT_FORM_SEND_TO", JUndef);
   ("blog.theme-path", "BLOG_THEME_PATH", JUndef);
   ("blog.theme-caching", "BLOG_THEME_CACHING", JBool true);
   ("blog.routing-table-path", "BLOG_ROUTING_TABLE_PATH", JUndef);
   ("blog.jwt-secret", "BLOG_JWT_SECRET", JUndef);
   ("blog.blog-route-prefix", "BLOG_ROUTE_PREFIX", JStr "/blog");
   ("blog.admin-route", "ADMIN_ROUTE", JStr "/admin");
   ("blog.admin-frontend-path", "ADMIN_FRONTEND_PATH", JStr "./build");
   ("blog.uploads-bucket-prefix", "UPLOADS_BUCKET_PREFIX", JStr "");
   ("blog.default-header-image", "DEFAULT_HEADER_IMAGE",
    JStr "/static/base/img/default.jpg");
   ("credentials.google.analytics-code", "GOOGLE_ANALYTICS_CODE", JUndef);
   ("credentials.google.oauth-client-id", "GOOGLE_OAUTH_CLIENT_ID", JUndef);
   ("credentials.google.oauth-client-secret", "GOOGLE_OAUTH_CLIENT_SECRET",
    JUndef);
   ("credentials.github.oauth-client-id", "GITHUB_CLIENT_ID", JUndef);
   ("credentials.github.oauth-client-secret", "GITHUB_CLIENT_SECRET", JUndef);
   ("credentials.google.recaptcha-v2-key", "GOOGLE_RECAPTCHA_V2_CLIENT_KEY",
    JUndef);
   ("credentials.google.recaptcha-v2-secret", "GOOGLE_RECAPTCHA_V2_SECRET_KEY",
    JUndef);
   ("credentials.google.gcs-bucket", "GOOGLE_GCS_BUCKET", JUndef);
   ("credentials.google.gcs-keyfile", "GOOGLE_APPLICATION_CREDENTIALS", JUndef);
   ("credentials.aws.s3-bucket", "AWS_S3_BUCKET", JUndef);
   ("credentials.aws.access-key-id", "AWS_ACCESS_KEY_ID", JUndef);
   ("credentials.aws.secret-access-key", "AWS_SECRET_ACCESS_KEY", JUndef);
   ("credentials.akismet.api-key", "AKISMET_APIKEY", JUndef);
   ("credentials.akismet.domain", "AKISMET_DOMAIN", JUndef);
   ("credentials.sendgrid", "SENDGRID_API_KEY", JUndef);
   ("credentials.medium", "MEDIUM_API_KEY", JUndef);
   ("credentials.twitter.consumer-key", "TWITTER_CONSUMER_KEY", JUndef);
   ("credentials.twitter.consumer-secret", "TWITTER_CONSUMER_SECRET", JUndef);
   ("credentials.twitter.access-token-key", "TWITTER_ACCESS_TOKEN_KEY", JUndef);
   ("credentials.twitter.access-token-secret", "TWITTER_ACCESS_TOKEN_SECRET",
    JUndef);
   ("credentials.linkedin.client-id", "LINKEDIN_CLIENT_ID", JUndef);
   ("credentials.linkedin.client-secret", "LINKEDIN_CLIENT_SECRET", JUndef);
   ("credentials.reddit.client-id", "REDDIT_CLIENT_ID", JUndef);
   ("credentials.reddit.client-secret", "REDDIT_CLIENT_SECRET", JUndef);
   ("credentials.medium.client-id", "MEDIUM_CLIENT_ID", JUndef);
   ("credentials.medium.client-secret", "MEDIUM_CLIENT_SECRET", JUndef);
   ("credentials.facebook.app-id", "FACEBOOK_APP_ID", JUndef)].

(** The body of [envOverrides.forEach]. *)
Definition override (penv : list (string * string)) (config : json)
           (o : Override) : json :=
  let '(configPath, env, defaultValue) := o in
  let config1 :=
    match (if truthy (JStr env) then getenv penv env else None) with
    | Some v => set config configPath (Scalar (JStr v))
    | None => config
    end in
  if truthy defaultValue && isUndefined (get config1 configPath)
  then set config1 configPath (Scalar defaultValue)
  else config1.

Definition overridden (penv : list (string * string)) (loaded : json) : json :=
  fold_left (override penv) envOverrides loaded.

(** The class [EmailString] comes from [./util]: an object made from a
    value. *)
Class UtilLib : Type := {
  EmailString : json -> json
}.

Inductive config_error : Type :=
| ConfigTypeError                        (* a key read or set on no object *)
| InvalidAdminRoute (raw : json).        (* [Invalid admin route: "raw"] *)

(** initConfig from [let config = jsYaml.load(configFile)] on, [loaded]
    being what the file parsed to. *)
Definition initConfig {util : UtilLib} (penv : list (string * string))
           (loaded : json) : config_error + json :=
  let config := overridden penv loaded in
  match config, own config "blog" with
  | Object top, Object blog =>
      let blog1 :=
        assign "admin-emails"
               (EmailString (own (Object blog) "admin-emails")) blog in
      let blog2 :=
        assign "publisher-emails"
               (EmailString (own (Object blog1) "publisher-emails")) blog1 in
      let blog3 :=
        assign "blog-route-prefix"
               (Scalar (JStr (trimEnd (own (Object blog2) "blog-route-prefix")
                                      "/"))) blog2 in
      let adminRoute := trimEnd (own (Object blog3) "admin-route") "/" in
      if (String.length adminRoute =? 0)%nat
      then inl (InvalidAdminRoute (own (Object blog3) "admin-route"))
      else inr (Object
                  (assign "blog"
                          (Object (assign "blog.admin-route"
                                          (Scalar (JStr adminRoute)) blog3))
                          top))
  | _, _ => inl ConfigTypeError
  end.




(** ** Sample configuration *)

Definition util_sample : UtilLib :=
  Build_UtilLib (fun v => Object [("raw", v)]).

Definition yaml1 : json :=
  Object [("blog", Object [("title", Scalar (JStr "Notes"));
                           ("admin-route", Scalar (JStr "/manage/"));
                           ("blog-route-prefix", Scalar (JStr "/"))]);
          ("credentials", Object [("medium", Scalar (JStr "file-key"))])].

Definition penv1 : list (string * string) :=
  [("BLOG_TITLE", "From env"); ("MEDIUM_CLIENT_ID", "cid");
   ("MEDIUM_API_KEY", "env-key")].




(* ================================================================ *)
(** * Properties *)

(** ** The visibility filter *)

Lemma filterNode_unfold (c : Comment) :
  filterNode c = with_replies c (filterNotApproved (replies_or_empty c)).
Proof.
  destruct c as [p a ct h u ci ap sp pa rs i].
  unfold filterNotApproved, replies_or_empty; simpl.
  f_equal. destruct rs as [l|]; [|reflexivity].
  induction l as [|x r IH]; simpl; [reflexivity|].
  destruct (approved x); simpl; now rewrite IH.
Qed.

Lemma filterNotApproved_unfold (comments : list Comment) :
  filterNotApproved comments =
  map (fun c => with_replies c (filterNotApproved (replies_or_empty c)))
      (filter approved comments).
Proof.
  unfold filterNotApproved at 1. apply map_ext. intro c. apply filterNode_unfold.
Qed.

(** ** The recipient path *)

Example parse_root : parse_recipient_path ("[" ++ quote_mark ++ "t1" ++ quote_mark ++ "]")
                     = Some ("t1", []).
Proof. reflexivity. Qed.

Example parse_nested :
  parse_recipient_path ("[" ++ quote_mark ++ "t1" ++ quote_mark ++ ",0,12]")
  = Some ("t1", [0%Z; 12%Z]).
Proof. reflexivity. Qed.

Example parse_leading_zero :
  parse_recipient_path ("[" ++ quote_mark ++ "t1" ++ quote_mark ++ ",01]") = None.
Proof. reflexivity. Qed.

(** ** The visibility filter, continued *)

Lemma filterNotApproved_app (a b : list Comment) :
  filterNotApproved (a ++ b) = filterNotApproved a ++ filterNotApproved b.
Proof.
  unfold filterNotApproved. now rewrite filter_app, map_app.
Qed.

Lemma filterNotApproved_cons (c : Comment) (cs : list Comment) :
  filterNotApproved (c :: cs) =
  (if approved c
   then [with_replies c (filterNotApproved (replies_or_empty c))]
   else []) ++ filterNotApproved cs.
Proof.
  unfold filterNotApproved at 1. simpl.
  destruct (approved c); simpl; [|reflexivity].
  now rewrite filterNode_unfold.
Qed.

Lemma every_node_unfold (t : Comment -> bool) (c : Comment) :
  every_node t c = t c && forallb (every_node t) (replies_or_empty c).
Proof.
  destruct c as [p a ct h u ci ap sp pa rs i].
  unfold replies_or_empty; simpl. f_equal.
  destruct rs as [l|]; [|reflexivity].
  induction l as [|x r IH]; simpl; [reflexivity|]. now rewrite IH.
Qed.

Lemma tree_ids_unfold (c : Comment) :
  tree_ids c = comment_id c :: forest_ids (replies_or_empty c).
Proof.
  destruct c as [p a ct h u ci ap sp pa rs i].
  unfold replies_or_empty, forest_ids; simpl. f_equal.
  destruct rs as [l|]; [|reflexivity].
  induction l as [|x r IH]; simpl; [reflexivity|]. now rewrite IH.
Qed.

Lemma filterNode_approved (c : Comment) :
  every_node approved (filterNode c) = approved c.
Proof.
  induction c as [c IH] using Comment_nested_ind.
  rewrite filterNode_unfold, every_node_unfold.
  change (approved (with_replies c _)) with (approved c).
  change (replies_or_empty (with_replies c ?l)) with l.
  destruct (approved c); [simpl|reflexivity].
  unfold filterNotApproved. rewrite forallb_forall. intros x Hx.
  apply in_map_iff in Hx. destruct Hx as [y [<- Hy]].
  apply filter_In in Hy. destruct Hy as [Hy Hap].
  rewrite Forall_forall in IH. now rewrite IH.
Qed.

Lemma filterNotApproved_all_approved (cs : list Comment) :
  forallb (every_node approved) (filterNotApproved cs) = true.
Proof.
  unfold filterNotApproved. rewrite forallb_forall. intros x Hx.
  apply in_map_iff in Hx. destruct Hx as [y [<- Hy]].
  apply filter_In in Hy. rewrite filterNode_approved. tauto.
Qed.

(** C1.  Among any siblings [before ++ c :: after], the filter answers
    with the filtered [before], then [c] when it is approved, its
    replies replaced by the filter of its own replies (none when the key
    is absent), and nothing of [c] or of what lies below it when it is
    not approved, then the filtered [after]; every node of the answer,
    at any depth, is approved. *)
Theorem filterNotApproved_drops_subtree_keeps_order
        (before after : list Comment) (c : Comment) :
  filterNotApproved (before ++ c :: after) =
    filterNotApproved before
    ++ (if approved c
        then [with_replies c
                (filterNotApproved
                   (match replies c with Some rs => rs | None => [] end))]
        else [])
    ++ filterNotApproved after
  /\ forallb (every_node approved) (filterNotApproved (before ++ c :: after))
     = true.
Proof.
  split.
  - rewrite filterNotApproved_app, filterNotApproved_cons. reflexivity.
  - apply filterNotApproved_all_approved.
Qed.

(** *** What the filter hides *)

Lemma forest_ids_app (a b : list Comment) :
  forest_ids (a ++ b) = forest_ids a ++ forest_ids b.
Proof. apply flat_map_app. Qed.

Lemma forest_ids_cons (c : Comment) (cs : list Comment) :
  forest_ids (c :: cs) = tree_ids c ++ forest_ids cs.
Proof. reflexivity. Qed.







(** ** References *)

Lemma deref_snoc (root : Comment) (p : list nat) (i : nat) :
  deref root (p ++ [i]) =
  match deref root p with
  | Some c =>
      match replies c with
      | Some rs => nth_error rs i
      | None => None
      end
  | None => None
  end.
Proof.
  revert root. induction p as [|j p IH]; intro root; simpl.
  - destruct (replies root) as [rs|]; [|reflexivity].
    now destruct (nth_error rs i).
  - destruct (replies root) as [rs|]; [|reflexivity].
    destruct (nth_error rs j) as [c|]; [apply IH|reflexivity].
Qed.

Lemma array_get_nth {A : Type} (l : list A) (i : Z) (x : A) :
  array_get l i = Some x -> nth_error l (Z.to_nat i) = Some x.
Proof.
  unfold array_get. now destruct (i <? 0)%Z.
Qed.

Lemma follow_undefined (root : Comment) (repliesIndices : list Z) :
  follow root undefined repliesIndices = Ok undefined
  \/ follow root undefined repliesIndices = Throw TypeError.
Proof.
  destruct repliesIndices; simpl; auto.
Qed.

(** The loop, read against the stored tree: it ends on the node the
    indices lead to, and on no node when an index leaves its array. *)
Lemma follow_resolve (root : Comment) (repliesIndices : list Z) :
  forall (p : list nat) (c : Comment),
    deref root p = Some c ->
    match resolve c repliesIndices with
    | Some T =>
        follow root (node p) repliesIndices
        = Ok (node (p ++ map Z.to_nat repliesIndices))
        /\ deref root (p ++ map Z.to_nat repliesIndices) = Some T
    | None =>
        follow root (node p) repliesIndices = Ok undefined
        \/ follow root (node p) repliesIndices = Throw TypeError
    end.
Proof.
  induction repliesIndices as [|i r IH]; intros p c Hc; simpl.
  - rewrite app_nil_r. auto.
  - rewrite Hc. unfold replies_or_empty.
    destruct (replies c) as [rs|] eqn:Hrs.
    + destruct (array_get rs i) as [child|] eqn:Hi.
      * assert (Hd : deref root (p ++ [Z.to_nat i]) = Some child).
        { rewrite deref_snoc, Hc, Hrs. now apply array_get_nth. }
        specialize (IH _ _ Hd).
        replace (p ++ Z.to_nat i :: map Z.to_nat r)
          with ((p ++ [Z.to_nat i]) ++ map Z.to_nat r)
          by now rewrite <- app_assoc.
        exact IH.
      * apply follow_undefined.
    + assert (Hn : array_get (@nil Comment) i = None).
      { unfold array_get. destruct (i <? 0)%Z; [reflexivity|].
        now destruct (Z.to_nat i). }
      rewrite Hn. now right.
Qed.

Lemma nth_error_update_nth {A : Type} (f : A -> A) (l : list A) (i : nat) :
  nth_error (update_nth i f l) i = option_map f (nth_error l i).
Proof.
  revert i. induction l as [|x r IH]; intros [|j]; simpl; auto.
Qed.

Lemma deref_modify (f : Comment -> Comment) (p : list nat) :
  forall root c,
    deref root p = Some c -> deref (modify f p root) p = Some (f c).
Proof.
  induction p as [|i p IH]; intros root c; simpl.
  - now intros [= ->].
  - destruct (replies root) as [rs|] eqn:Hrs; [|discriminate].
    destruct (nth_error rs i) as [x|] eqn:Hx; [|discriminate].
    intro Hc. simpl. rewrite nth_error_update_nth, Hx. simpl.
    now apply IH.
Qed.

Lemma find_replace_doc (i : string) (doc : Comment) (l : list Hit) (h : Hit) :
  find (has_id i) l = Some h ->
  find (has_id i) (map (replace_doc i doc) l) = Some (mkHit i doc).
Proof.
  induction l as [|x r IH]; simpl; [discriminate|].
  unfold replace_doc at 1 2.
  destruct (has_id i x) eqn:Hx.
  - intros _. unfold has_id. simpl. now rewrite String.eqb_refl.
  - rewrite Hx. exact IH.
Qed.

Lemma array_get_nil {A : Type} (i : Z) : array_get (@nil A) i = None.
Proof.
  unfold array_get. destruct (i <? 0)%Z; [reflexivity|].
  now destruct (Z.to_nat i).
Qed.

Lemma array_get_update_nth {A : Type} (f : A -> A) (l : list A) (i : Z) :
  array_get (update_nth (Z.to_nat i) f l) i = option_map f (array_get l i).
Proof.
  unfold array_get. destruct (i <? 0)%Z; [reflexivity|].
  apply nth_error_update_nth.
Qed.

Lemma resolve_modify (f : Comment -> Comment) (repliesIndices : list Z) :
  forall root T,
    resolve root repliesIndices = Some T ->
    resolve (modify f (map Z.to_nat repliesIndices) root) repliesIndices
    = Some (f T).
Proof.
  induction repliesIndices as [|i r IH]; intros root T; simpl.
  - now intros [= ->].
  - unfold replies_or_empty at 1.
    destruct (replies root) as [rs|] eqn:Hrs.
    + destruct (array_get rs i) as [c|] eqn:Hi; [|discriminate].
      intro Hc. change (replies_or_empty (with_replies root ?l)) with l.
      rewrite array_get_update_nth, Hi. simpl. now apply IH.
    + now rewrite array_get_nil.
Qed.

Lemma array_get_out {A : Type} (l : list A) (i : Z) :
  (i < 0 \/ Z.of_nat (List.length l) <= i)%Z <-> array_get l i = None.
Proof.
  unfold array_get. destruct (i <? 0)%Z eqn:Hneg.
  - apply Z.ltb_lt in Hneg. split; auto.
  - apply Z.ltb_ge in Hneg. rewrite nth_error_None. split.
    + intros [H|H]; lia.
    + intro H. right. lia.
Qed.


Lemma resolve_none_inv (repliesIndices : list Z) :
  forall c,
    resolve c repliesIndices = None ->
    exists before i after reached,
      repliesIndices = before ++ i :: after
      /\ resolve c before = Some reached
      /\ (i < 0 \/ Z.of_nat (List.length (replies_or_empty reached)) <= i)%Z.
Proof.
  induction repliesIndices as [|j r IH]; intros c; simpl; [discriminate|].
  destruct (array_get (replies_or_empty c) j) as [child|] eqn:Hj.
  - intro H. destruct (IH child H) as [b [i [a [n [-> [Hb Hout]]]]]].
    exists (j :: b), i, a, n. simpl. rewrite Hj. auto.
  - intros _. exists [], j, r, c. simpl. split; [reflexivity|].
    split; [reflexivity|]. now apply array_get_out.
Qed.

(** ** createComment *)

Section CreateComment.
Context {joi : JoiLib}.
Variables (env : Env) (comment : Arg.Comment) (st : ES).

Lemma createComment_invalid (e : ErrorItem) (rest : list ErrorItem) :
  CreateCommentArgSchema comment = e :: rest ->
  createComment env comment st = (Throw (ValidationError [e]), st).
Proof.
  intro Hv. unfold createComment. rewrite Hv. reflexivity.
Qed.

Lemma valid_recipient_path :
  CreateCommentArgSchema comment = [] ->
  Arg.recipient_path comment = JNull
  \/ exists s, Arg.recipient_path comment = JStr s /\ s <> "".
Proof.
  unfold CreateCommentArgSchema. intro Hv.
  apply app_eq_nil in Hv. destruct Hv as [Hv _].
  destruct (Arg.recipient_path comment) as [| |b|z|s]; try discriminate.
  - now left.
  - right. exists s. split; [reflexivity|].
    simpl in Hv. intros ->. discriminate.
Qed.

Lemma createComment_root :
  CreateCommentArgSchema comment = [] ->
  Arg.recipient_path comment = JNull ->
  createComment env comment st =
  (Ok (mkCreateResult None None),
   mkES (docs st ++ [mkHit (new_id env) (make_body env comment)]) (posts st)
        (writes st ++ [Index (make_body env comment)])).
Proof.
  intros Hv Hp. unfold createComment. rewrite Hv, Hp. reflexivity.
Qed.

Variables (s documentId : string) (repliesIndices : list Z) (h : Hit).
Hypothesis valid : CreateCommentArgSchema comment = [].
Hypothesis to_path : Arg.recipient_path comment = JStr s.
Hypothesis parsed :
  parse_recipient_path s = Some (documentId, repliesIndices).
Hypothesis stored : find (has_id documentId) (docs st) = Some h.

Lemma createComment_reply (T : Comment) :
  resolve (_source h) repliesIndices = Some T ->
  let body := make_body env comment in
  let p := map Z.to_nat repliesIndices in
  let root' := modify (push_reply body) p (_source h) in
  createComment env comment st =
  (Ok (mkCreateResult (Some body) (Some (push_reply body T))),
   mkES (map (replace_doc documentId root') (docs st)) (posts st)
        (writes st ++ [Update documentId root']))
  /\ deref root' p = Some (push_reply body T).
Proof.
  intros HT body p root'.
  destruct (valid_recipient_path valid) as [Hn|[s' [Hs Hne]]];
    [congruence|].
  assert (s' = s) by congruence. subst s'.
  pose proof (@follow_resolve (_source h) repliesIndices [] (_source h)
                eq_refl) as Hf.
  rewrite HT in Hf. simpl in Hf. destruct Hf as [Hf Hd].
  assert (Hd' : deref root' p = Some (push_reply body T))
    by now apply deref_modify.
  split; [|exact Hd'].
  unfold createComment. rewrite valid, to_path. simpl.
  apply String.eqb_neq in Hne. rewrite Hne. simpl. rewrite parsed.
  unfold bind, es_get. rewrite stored. simpl. unfold lift.
  rewrite Hf. fold p. fold body. fold root'.
  unfold es_update. rewrite stored. simpl. unfold ret.
  now rewrite Hd'.
Qed.

End CreateComment.

(** *** Validation *)




(** *** Replies *)

(** C2, as the code has it.  A reply whose path leads to the node [T]
    of the stored thread is answered with the new comment and with [T]
    as it is after the append: the replies [T] had, then the new
    comment.  The thread is written back whole, the same node grown at
    the end of its replies. *)
Theorem createComment_reply_returns_grown_target
        {joi : JoiLib} (env : Env) (comment : Arg.Comment) (st : ES)
        (s documentId : string) (repliesIndices : list Z) (h : Hit)
        (T : Comment) :
  CreateCommentArgSchema comment = [] ->
  Arg.recipient_path comment = JStr s ->
  parse_recipient_path s = Some (documentId, repliesIndices) ->
  find (has_id documentId) (docs st) = Some h ->
  resolve (_source h) repliesIndices = Some T ->
  let body := make_body env comment in
  let grown := with_replies T (replies_or_empty T ++ [body]) in
  exists root' st',
    createComment env comment st
    = (Ok (mkCreateResult (Some body) (Some grown)), st')
    /\ find (has_id documentId) (docs st') = Some (mkHit documentId root')
    /\ writes st' = writes st ++ [Update documentId root']
    /\ resolve root' repliesIndices = Some grown.
Proof.
  intros Hv Hp Hparse Hfind HT body grown.
  destruct (@createComment_reply joi env comment st s documentId
              repliesIndices h Hv Hp Hparse Hfind T HT) as [Hrun _].
  eexists. eexists. split; [exact Hrun|].
  split; [simpl; now apply find_replace_doc with (h := h)|].
  split; [reflexivity|].
  exact (@resolve_modify (push_reply body) repliesIndices (_source h) T HT).
Qed.

Lemma createComment_reply_returns_grown_target_witness :
  let comment := arg1 (path "t1" ",0") (JBool false) in
  let body := make_body env1 comment in
  resolve root1 [0%Z] = Some reply1
  /\ exists root' st',
       @createComment joi_sample env1 comment es1
       = (Ok (mkCreateResult (Some body)
                (Some (with_replies reply1 (replies_or_empty reply1 ++ [body])))),
          st')
       /\ find (has_id "t1") (docs st') = Some (mkHit "t1" root')
       /\ writes st' = writes es1 ++ [Update "t1" root']
       /\ resolve root' [0%Z]
          = Some (with_replies reply1 (replies_or_empty reply1 ++ [body])).
Proof.
  intros comment body. split; [reflexivity|].
  apply (@createComment_reply_returns_grown_target joi_sample env1 comment es1
           (as_string (path "t1" ",0")) "t1" [0%Z] (mkHit "t1" root1) reply1);
    reflexivity.
Defined.

(** C2 fails as stated: a reply to the root of thread [t1], which has
    one reply, is answered with a [repliedToComment] that is not the
    root as it was, and whose replies hold the new comment. *)
Lemma createComment_reply_target_holds_new_comment :
  let comment := arg1 (path "t1" "") (JBool false) in
  find (has_id "t1") (docs es1) = Some (mkHit "t1" root1)
  /\ exists r st',
       @createComment joi_sample env1 comment es1 = (Ok r, st')
       /\ repliedToComment r <> Some root1
       /\ exists t, repliedToComment r = Some t
                    /\ In (make_body env1 comment) (replies_or_empty t).
Proof.
  intro comment. split; [reflexivity|].
  eexists. eexists. split; [lazy; reflexivity|]. split.
  - simpl. discriminate.
  - eexists. split; [reflexivity|]. simpl. tauto.
Qed.

(** C4 on the code.  A valid argument without a recipient path stores
    the new comment as a thread of its own and answers with
    [repliedToComment: null], and with a [newComment] that is
    undefined: the response of [esClient.index] has no [_source]. *)
Lemma createComment_root_returns_no_newComment :
  let comment := arg1 JNull (JBool false) in
  let body := make_body env1 comment in
  @createComment joi_sample env1 comment es1
  = (Ok (mkCreateResult None None),
     mkES (docs es1 ++ [mkHit "t2" body]) [] [Index body])
  /\ replies body = None.
Proof.
  split; reflexivity.
Qed.



(** ** Scrolling *)

Lemma insert_hit_perm (o : SortOrder) (h : Hit) (l : list Hit) :
  Permutation (insert_hit o h l) (h :: l).
Proof.
  induction l as [|x r IH]; simpl; [reflexivity|].
  destruct (sorts_before o h x); [reflexivity|].
  rewrite IH. apply perm_swap.
Qed.

Lemma sort_hits_perm (o : option SortOrder) (l : list Hit) :
  Permutation (sort_hits o l) l.
Proof.
  destruct o as [ord|]; simpl; [|reflexivity].
  induction l as [|x r IH]; simpl; [reflexivity|].
  rewrite insert_hit_perm. now constructor.
Qed.

Lemma filter_length_le {A : Type} (t : A -> bool) (l : list A) :
  List.length (filter t l) <= List.length l.
Proof.
  induction l as [|x r IH]; simpl; [lia|].
  destruct (t x); simpl; lia.
Qed.

Lemma searched_length (o : option SortOrder) (q : Query) (l : list Hit) :
  List.length (sort_hits o (filter (matches q) l)) <= List.length l.
Proof.
  rewrite (Permutation_length (sort_hits_perm o _)).
  apply filter_length_le.
Qed.

Section Scroll.
Context {es : EsLib}.

(** A page without hits ends the loop; any other page is kept and the
    loop goes on with the next one. *)
Lemma scroll_all_step (fuel : nat) (resp : SearchResponse)
      (acc : list Hit) (st : ES) :
  scroll_all (S fuel) resp acc st =
  match hits resp with
  | [] => (Ok acc, st)
  | _ :: _ =>
      (resp' <- es_scroll (_scroll_id resp) ;;
       scroll_all fuel resp' (acc ++ hits resp)) st
  end.
Proof.
  simpl. now destruct (hits resp).
Qed.

(** Over the pages of a cursor the loop ends and has every hit, once,
    in the order of the pages. *)
Lemma scroll_all_cursor (n : nat) (a : option Aggregations) :
  0 < n ->
  forall (fuel : nat) (rest acc : list Hit) (st : ES),
    List.length rest < fuel ->
    scroll_all fuel
      (mkSearchResponse (Some (mkCursor n (skipn n rest))) (firstn n rest) a)
      acc st
    = (Ok (acc ++ rest), st).
Proof.
  intros Hn fuel. revert a.
  induction fuel as [|fuel IH]; intros a rest acc st Hlen; [lia|].
  rewrite scroll_all_step. cbn [hits _scroll_id].
  destruct rest as [|x r].
  - rewrite firstn_nil, app_nil_r. reflexivity.
  - destruct n as [|m]; [lia|].
    cbn [firstn]. unfold bind, es_scroll, ret.
    cbn [page_size remaining].
    change (x :: firstn m r) with (firstn (S m) (x :: r)).
    rewrite IH.
    + rewrite <- app_assoc, firstn_skipn. reflexivity.
    + rewrite length_skipn. simpl in *. lia.
Qed.

Lemma es_search_scroll (q : Query) (o : option SortOrder) (st : ES) :
  es_search true (mkSearchBody None q o None) st =
  (Ok (first_page default_size (sort_hits o (filter (matches q) (docs st)))),
   st).
Proof. reflexivity. Qed.

Lemma getAllComments_all (fuel : nat) (st : ES) :
  List.length (docs st) < fuel ->
  getAllComments fuel st = (Ok (map hit_comment (docs st)), st).
Proof.
  intro Hlen. unfold getAllComments, bind at 1.
  rewrite es_search_scroll. unfold first_page, bind.
  rewrite scroll_all_cursor.
  - simpl. unfold ret. do 3 f_equal.
    clear. induction (docs st) as [|x r IH]; simpl; [reflexivity|].
    now rewrite IH.
  - unfold default_size. lia.
  - eapply Nat.le_lt_trans; [apply (searched_length None match_all)|].
    exact Hlen.
Qed.

Lemma getComments_all (fuel : nat) (postIds : list string) (st : ES) :
  List.length (docs st) < fuel ->
  getComments fuel postIds st =
  (Ok (filterNotApproved
         (map hit_comment
            (sort_hits (Some asc)
               (filter (matches (listing_query postIds)) (docs st))))),
   st).
Proof.
  intro Hlen. unfold getComments, bind at 1.
  fold (listing_query postIds).
  rewrite es_search_scroll. unfold first_page, bind.
  rewrite scroll_all_cursor.
  - reflexivity.
  - unfold default_size. lia.
  - eapply Nat.le_lt_trans; [apply searched_length|]. exact Hlen.
Qed.
End Scroll.

Lemma filterNode_id (c : Comment) : id (filterNode c) = id c.
Proof. now rewrite filterNode_unfold. Qed.

Lemma listing_roots_approved (postIds : list string) (hs : list Hit) :
  forallb (matches (listing_query postIds)) hs = true ->
  filter approved (map hit_comment hs) = map hit_comment hs.
Proof.
  induction hs as [|h r IH]; simpl; [reflexivity|].
  intro H. apply andb_prop in H. destruct H as [Hh Hr].
  apply andb_prop in Hh. destruct Hh as [_ Hh].
  apply andb_prop in Hh. destruct Hh as [Hap _].
  apply eqb_prop in Hap. rewrite Hap, IH by assumption. reflexivity.
Qed.

Lemma forallb_filter {A : Type} (t : A -> bool) (l : list A) :
  forallb t (filter t l) = true.
Proof.
  apply forallb_forall. intros x Hx. apply filter_In in Hx. tauto.
Qed.

Lemma forallb_perm {A : Type} (t : A -> bool) (l l' : list A) :
  Permutation l l' -> forallb t l = true -> forallb t l' = true.
Proof.
  intros Hp Hl. apply forallb_forall. intros x Hx.
  rewrite forallb_forall in Hl. apply Hl.
  now apply (Permutation_in _ (Permutation_sym Hp)).
Qed.

Lemma listing_ids (postIds : list string) (hs : list Hit) :
  forallb (matches (listing_query postIds)) hs = true ->
  map id (filterNotApproved (map hit_comment hs))
  = map (fun h => Some (_id h)) hs.
Proof.
  intro H. unfold filterNotApproved.
  rewrite (listing_roots_approved postIds hs H), !map_map.
  apply map_ext. intro h. now rewrite filterNode_id.
Qed.

(** C7.  Over the pages of a scrolled search, of any page size, the
    loop keeps every page that has hits and ends at the first page that
    has none; with fuel for one turn a hit and one more it returns the
    hits of the search, each once, none left out, in the order of the
    pages.  So getAllComments returns one comment for every document of
    the index, and getComments the matching threads in the order of the
    search, one root each. *)
Theorem scroll_returns_every_hit_once
        {es : EsLib} (fuel n : nat) (ordered : list Hit)
        (postIds : list string) (st : ES) :
  0 < n ->
  List.length ordered < fuel ->
  List.length (docs st) < fuel ->
  scroll_all fuel (first_page n ordered) [] st = (Ok ordered, st)
  /\ (forall resp acc,
         scroll_all (S fuel) resp acc st =
         match hits resp with
         | [] => (Ok acc, st)
         | _ :: _ =>
             (resp' <- es_scroll (_scroll_id resp) ;;
              scroll_all fuel resp' (acc ++ hits resp)) st
         end)
  /\ getAllComments fuel st = (Ok (map hit_comment (docs st)), st)
  /\ exists listed,
       let found :=
         sort_hits (Some asc)
                   (filter (matches (listing_query postIds)) (docs st)) in
       getComments fuel postIds st = (Ok listed, st)
       /\ map id listed = map (fun h => Some (_id h)) found
       /\ Permutation found
                      (filter (matches (listing_query postIds)) (docs st)).
Proof.
  intros Hn Hord Hdocs. split; [|split; [|split]].
  - unfold first_page. now rewrite scroll_all_cursor.
  - intros resp acc. apply scroll_all_step.
  - now apply getAllComments_all.
  - eexists. cbv zeta. split; [now apply getComments_all|].
    split; [|apply sort_hits_perm].
    apply listing_ids with (postIds := postIds).
    apply forallb_perm with (l := filter (matches (listing_query postIds))
                                         (docs st)).
    + symmetry. apply (sort_hits_perm (Some asc)).
    + apply forallb_filter.
Qed.

Lemma scroll_returns_every_hit_once_witness :
  List.length (docs es12) = 12
  /\ @getAllComments es_sample 13 es12
     = (Ok (map hit_comment (docs es12)), es12)
  /\ scroll_all 13 (first_page 5 (docs es12)) [] es12 = (Ok (docs es12), es12).
Proof.
  split; [reflexivity|].
  destruct (@scroll_returns_every_hit_once es_sample 13 5 (docs es12) ["p1"]
              es12) as [H1 [_ [H2 _]]].
  - lia.
  - simpl. lia.
  - simpl. lia.
  - split; [exact H2|exact H1].
Defined.

(** ** Statistics *)

Lemma insert_bucket_in (b x : Bucket) (l : list Bucket) :
  In x (insert_bucket b l) -> x = b \/ In x l.
Proof.
  induction l as [|y r IH]; simpl.
  - intros [<-|[]]. now left.
  - destruct (bucket_before b y); simpl.
    + intros [<-|H]; auto.
    + intros [<-|H]; auto. destruct (IH H); auto.
Qed.

Lemma sorted_buckets_in (x : Bucket) (l : list Bucket) :
  In x (fold_right insert_bucket [] l) -> In x l.
Proof.
  induction l as [|y r IH]; simpl; [tauto|].
  intro H. apply insert_bucket_in in H. destruct H as [->|H]; auto.
Qed.

Lemma firstn_in {A : Type} (n : nat) (x : A) (l : list A) :
  In x (firstn n l) -> In x l.
Proof.
  intro H. rewrite <- (firstn_skipn n l). apply in_or_app. now left.
Qed.

(** A bucket counts the matching documents of its post. *)
Lemma terms_bucket_count (n : nat) (matching : list Hit) (b : Bucket) :
  In b (terms_post_id_agg n matching) ->
  doc_count b = List.length (filter (has_post (key b)) matching).
Proof.
  unfold terms_post_id_agg. intro H.
  apply firstn_in, sorted_buckets_in, in_map_iff in H.
  destruct H as [k [<- _]]. reflexivity.
Qed.

Lemma terms_bucket_bound (n : nat) (matching : list Hit) :
  List.length (terms_post_id_agg n matching) <= n.
Proof. apply firstn_le_length. Qed.

Lemma found_posts (ids : list string) (st : ES) :
  exists ps,
    getItemsByIds ids st = (Ok ps, st)
    /\ List.length ps <= List.length ids
    /\ Forall (fun p => In (Post.id p) ids) ps.
Proof.
  unfold getItemsByIds. eexists. split; [reflexivity|].
  induction ids as [|i r [IHl IHf]]; simpl; [split; [lia|constructor]|].
  destruct (find (fun p => String.eqb (Post.id p) i) (posts st))
    as [p|] eqn:Hp; simpl.
  - split; [lia|]. constructor.
    + apply find_some in Hp. destruct Hp as [_ Hp].
      apply String.eqb_eq in Hp. now left.
    + eapply Forall_impl; [|exact IHf]. simpl. auto.
  - split; [lia|]. eapply Forall_impl; [|exact IHf]. simpl. auto.
Qed.

Lemma find_bucket (k : string) (bs : list Bucket) :
  In k (map key bs) ->
  exists b, find (fun b => String.eqb (key b) k) bs = Some b
            /\ key b = k /\ In b bs.
Proof.
  induction bs as [|x r IH]; simpl; [tauto|].
  destruct (String.eqb (key x) k) eqn:Hx.
  - intros _. exists x. apply String.eqb_eq in Hx. auto.
  - intros [H|H].
    + apply String.eqb_neq in Hx. contradiction.
    + destruct (IH H) as [b [Hb [Hk Hin]]]. exists b. auto.
Qed.

Lemma counted_posts (bs : list Bucket) (ps : list Post.t) :
  Forall (fun p => In (Post.id p) (map key bs)) ps ->
  exists es,
    map_m (counted bs) ps = Ok es
    /\ List.length es = List.length ps
    /\ Forall (fun e => exists b, In b bs /\ key b = Post.id (post e)
                                  /\ comments_count e = doc_count b) es.
Proof.
  induction 1 as [|p r Hp Hr [es [Hes [Hlen Hall]]]]; simpl.
  - exists []. repeat split. constructor.
  - destruct (find_bucket _ _ Hp) as [b [Hb [Hk Hin]]].
    unfold counted at 1. rewrite Hb, Hes.
    eexists. split; [reflexivity|]. split; [simpl; lia|].
    constructor; [|exact Hall]. exists b. simpl. auto.
Qed.

Lemma es_search_stats {es : EsLib} (q : Query) (i : string) (st : ES) :
  es_search false
    (mkSearchBody (Some 10) q (Some desc) (Some (mkAggs 5 i))) st =
  (Ok (mkSearchResponse None
         (firstn 10 (sort_hits (Some desc) (filter (matches q) (docs st))))
         (Some (run_aggs (mkAggs 5 i) (filter (matches q) (docs st))))),
   st).
Proof. reflexivity. Qed.

(** C8.  getStats answers; [mostCommentedPosts] has at most five
    entries, and the [comments_count] of each is the [doc_count] of the
    bucket of its post id, the number of matching documents of that
    post.  A response without [aggregations], or with no bucket in
    either aggregation, gives [mostCommentedPosts] and [commentsByDate]
    empty. *)
Theorem getStats_most_commented_posts
        {es : EsLib} (a : StatsArg) (st : ES) :
  let matching := filter (matches (stats_query a)) (docs st) in
  (exists stats,
      getStats a st = (Ok stats, st)
      /\ List.length (mostCommentedPosts stats) <= 5
      /\ Forall
           (fun e =>
              exists b,
                In b (terms_post_id_agg 5 matching)
                /\ key b = Post.id (post e)
                /\ comments_count e = doc_count b
                /\ comments_count e
                   = List.length
                       (filter (has_post (Post.id (post e))) matching))
           (mostCommentedPosts stats))
  /\ (forall countResp cursor page st',
         getStats_result countResp (mkSearchResponse cursor page None) st'
         = (Ok (mkStats [] [] (map hit_comment page) countResp), st'))
  /\ (forall countResp cursor page st',
         getStats_result countResp
           (mkSearchResponse cursor page (Some (mkAggregations [] []))) st'
         = (Ok (mkStats [] [] (map hit_comment page) countResp), st')).
Proof.
  intro matching. split; [|split; intros; reflexivity].
  unfold getStats. unfold bind at 1. unfold es_count. cbv beta iota.
  unfold bind at 1. rewrite es_search_stats. cbv beta iota.
  fold matching. unfold getStats_result, run_aggs.
  cbn [aggregations post_ids comments_histogram hits post_ids_size].
  set (bs := terms_post_id_agg 5 matching).
  destruct (found_posts (map key bs) st) as [ps [Hps [Hlen Hall]]].
  unfold bind at 1. rewrite Hps.
  destruct (counted_posts bs Hall) as [entries [Hes [Hl Hentries]]].
  unfold bind, lift. rewrite Hes. unfold ret.
  eexists. split; [reflexivity|]. cbn [mostCommentedPosts].
  split.
  - rewrite Hl. eapply Nat.le_trans; [exact Hlen|].
    rewrite length_map. apply terms_bucket_bound.
  - eapply Forall_impl; [|exact Hentries].
    intros e [b [Hin [Hk Hc]]]. exists b. repeat split; try assumption.
    rewrite Hc, <- Hk. now apply terms_bucket_count with (n := 5).
Qed.

(** ** Deleting the comments of a post *)

Lemma matches_term_post_id (post : string) (h : Hit) :
  matches (bool_filter [term_post_id post]) h = has_post post h.
Proof. unfold has_post. simpl. apply andb_true_r. Qed.

Lemma filter_none {A : Type} (t : A -> bool) (l : list A) :
  filter t (filter (fun x => negb (t x)) l) = [].
Proof.
  induction l as [|x r IH]; simpl; [reflexivity|].
  destruct (t x) eqn:Hx; simpl; [exact IH|]. now rewrite Hx.
Qed.

Lemma filter_idem {A : Type} (t : A -> bool) (l : list A) :
  filter t (filter t l) = filter t l.
Proof.
  induction l as [|x r IH]; simpl; [reflexivity|].
  destruct (t x) eqn:Hx; simpl; [rewrite Hx; now f_equal|exact IH].
Qed.

(** C9.  deletePostComments removes every document of the index whose
    [post_id] is the given one and no other, and answers with their
    number; run again with the same id it answers too, deletes nothing
    and leaves the documents as they are. *)
Theorem deletePostComments_idempotent (post : string) (st : ES) :
  exists r1 st1 r2 st2,
    deletePostComments post st = (Ok r1, st1)
    /\ docs st1 = filter (fun h => negb (has_post post h)) (docs st)
    /\ prop r1 "deleted"
       = Some (RNum (List.length (filter (has_post post) (docs st))))
    /\ filter (has_post post) (docs st1) = []
    /\ deletePostComments post st1 = (Ok r2, st2)
    /\ prop r2 "deleted" = Some (RNum 0)
    /\ docs st2 = docs st1
    /\ posts st2 = posts st1.
Proof.
  unfold deletePostComments, es_deleteByQuery.
  do 4 eexists. split; [reflexivity|]. cbn [docs posts prop String.eqb].
  assert (Hf : forall l,
             filter (fun h => negb (matches (bool_filter [term_post_id post]) h)) l
             = filter (fun h => negb (has_post post h)) l).
  { intro l. apply filter_ext. intro h. now rewrite matches_term_post_id. }
  assert (Hg : forall l,
             filter (matches (bool_filter [term_post_id post])) l
             = filter (has_post post) l).
  { intro l. apply filter_ext. intro h. apply matches_term_post_id. }
  rewrite !Hf, !Hg.
  split; [reflexivity|]. split; [reflexivity|].
  split; [apply filter_none|].
  split; [reflexivity|].
  split.
  - simpl. now rewrite filter_none.
  - split; [apply filter_idem|reflexivity].
Qed.

(** ** Approval *)

Lemma filterNotApproved_in (c : Comment) (l : list Comment) :
  In c l -> approved c = true -> In (filterNode c) (filterNotApproved l).
Proof.
  intros Hin Hap. unfold filterNotApproved. apply in_map.
  apply filter_In. now split.
Qed.

Lemma mem_string_head (x : string) (l : list string) :
  mem_string x (x :: l) = true.
Proof. unfold mem_string. simpl. now rewrite String.eqb_refl. Qed.

Lemma listing_matches_null_spam (i : string) (c : Comment) (ps : list string) :
  approved c = true -> spam c = JNull ->
  matches (listing_query (post_id c :: ps)) (mkHit i c) = true.
Proof.
  intros Hap Hsp. unfold listing_query, matches.
  cbn [forallb clause_matches _source].
  now rewrite mem_string_head, Hap, Hsp.
Qed.

(** The ways createComment succeeds. *)
Lemma createComment_ok {joi : JoiLib} (env : Env) (comment : Arg.Comment)
      (st st' : ES) (r : CreateResult) :
  createComment env comment st = (Ok r, st') ->
  let body := make_body env comment in
  CreateCommentArgSchema comment = []
  /\ ((Arg.recipient_path comment = JNull
       /\ r = mkCreateResult None None
       /\ st' = mkES (docs st ++ [mkHit (new_id env) body]) (posts st)
                     (writes st ++ [Index body]))
      \/ (exists documentId p root,
             newComment r = Some body
             /\ st' = mkES (map (replace_doc documentId
                                   (modify (push_reply body) p root))
                                (docs st))
                           (posts st)
                           (writes st
                            ++ [Update documentId
                                  (modify (push_reply body) p root)]))).
Proof.
  intros Hrun body.
  destruct (CreateCommentArgSchema comment) as [|e rest] eqn:Hv.
  2:{ rewrite (@createComment_invalid joi env comment st e rest Hv) in Hrun. discriminate. }
  split; [reflexivity|].
  destruct (@valid_recipient_path joi comment Hv) as [Hn|[s [Hs Hne]]].
  - left. rewrite (@createComment_root joi env comment st Hv Hn) in Hrun.
    injection Hrun as <- <-. auto.
  - right. unfold createComment in Hrun. rewrite Hv, Hs in Hrun.
    simpl in Hrun. apply String.eqb_neq in Hne. rewrite Hne in Hrun.
    simpl in Hrun.
    destruct (parse_recipient_path s) as [[documentId idxs]|];
      [|discriminate].
    unfold bind, es_get in Hrun.
    destruct (find (has_id documentId) (docs st)) as [h|] eqn:Hfind;
      [|discriminate].
    simpl in Hrun. unfold lift in Hrun.
    destruct (follow (_source h) (node []) idxs) as [[|p]| |];
      try discriminate.
    unfold es_update in Hrun. rewrite Hfind in Hrun.
    unfold ret in Hrun. injection Hrun as <- <-.
    exists documentId, p, (_source h). split; reflexivity.
Qed.

(** *** The listing hides what the filter hides *)

Lemma scroll_all_cursor_ok (n : nat) :
  0 < n ->
  forall (fuel : nat) (a : option Aggregations) (rest acc out : list Hit)
         (st st' : ES),
    scroll_all fuel
      (mkSearchResponse (Some (mkCursor n (skipn n rest))) (firstn n rest) a)
      acc st
    = (Ok out, st') ->
    out = acc ++ rest /\ st' = st.
Proof.
  intros Hn fuel.
  induction fuel as [|fuel IH]; intros a rest acc out st st';
    [discriminate|].
  rewrite scroll_all_step. cbn [hits _scroll_id].
  destruct rest as [|x r].
  - rewrite firstn_nil, app_nil_r. now intros [= <- <-].
  - destruct n as [|m]; [lia|].
    cbn [firstn]. unfold bind, es_scroll, ret.
    cbn [page_size remaining].
    change (x :: firstn m r) with (firstn (S m) (x :: r)).
    intro H. apply IH in H. destruct H as [-> ->].
    now rewrite <- app_assoc, firstn_skipn.
Qed.

Lemma getComments_ok {es : EsLib} (fuel : nat) (postIds : list string)
      (st st' : ES) (listed : list Comment) :
  getComments fuel postIds st = (Ok listed, st') ->
  listed = filterNotApproved
             (map hit_comment
                (sort_hits (Some asc)
                   (filter (matches (listing_query postIds)) (docs st)))).
Proof.
  unfold getComments, bind at 1. fold (listing_query postIds).
  rewrite es_search_scroll. unfold first_page, bind.
  destruct (scroll_all fuel _ [] st) as [[out| |] st1] eqn:Hrun;
    try discriminate.
  apply scroll_all_cursor_ok in Hrun; [|unfold default_size; lia].
  destruct Hrun as [-> ->]. unfold ret. now intros [= <- _].
Qed.






(** C10.  An argument that is valid with [spam: null] passes the
    schema's test of [spam]; the comment made of it has [approved] true
    and [spam] null, and the filter keeps it among any siblings.
    Created as a thread of its own, it is in the listing of its post. *)
Theorem createComment_null_spam_is_visible
        {joi : JoiLib} {es : EsLib} (env : Env) (comment : Arg.Comment)
        (st : ES) (fuel : nat) :
  CreateCommentArgSchema comment = [] ->
  Arg.spam comment = JNull ->
  List.length (docs st) + 1 < fuel ->
  let body := make_body env comment in
  boolean_allow_null_required ["spam"] (Arg.spam comment) = []
  /\ approved body = true
  /\ spam body = JNull
  /\ (forall before after,
         In (with_replies body [])
            (filterNotApproved (before ++ body :: after)))
  /\ (Arg.recipient_path comment = JNull ->
      exists r st' listed,
        createComment env comment st = (Ok r, st')
        /\ docs st' = docs st ++ [mkHit (new_id env) body]
        /\ getComments fuel [post_id body] st' = (Ok listed, st')
        /\ In (with_replies (with_id body (new_id env)) []) listed).
Proof.
  intros Hv Hspam Hfuel body.
  assert (Hap : approved body = true).
  { unfold body, make_body, js_not. simpl. now rewrite Hspam. }
  assert (Hsp : spam body = JNull) by exact Hspam.
  split; [now rewrite Hspam|]. split; [exact Hap|]. split; [exact Hsp|].
  split.
  - intros before after.
    change (with_replies body []) with (filterNode body).
    apply filterNotApproved_in; [|exact Hap].
    apply in_or_app. right. now left.
  - intro Hroot. do 3 eexists.
    split; [apply (@createComment_root joi env comment st Hv Hroot)|].
    split; [reflexivity|].
    split.
    + apply getComments_all. cbn [docs]. rewrite length_app. simpl. lia.
    + cbn [docs].
      change (with_replies (with_id body (new_id env)) [])
        with (filterNode (hit_comment (mkHit (new_id env) body))).
      apply filterNotApproved_in; [|exact Hap].
      apply in_map.
      apply (Permutation_in _ (Permutation_sym (sort_hits_perm (Some asc) _))).
      apply filter_In. split.
      * apply in_or_app. right. now left.
      * now apply listing_matches_null_spam.
Qed.

Lemma createComment_null_spam_is_visible_witness :
  let comment := arg1 JNull JNull in
  let body := make_body env1 comment in
  @CreateCommentArgSchema joi_sample comment = []
  /\ approved body = true
  /\ spam body = JNull
  /\ exists r st' listed,
       @createComment joi_sample env1 comment es1 = (Ok r, st')
       /\ docs st' = docs es1 ++ [mkHit "t2" body]
       /\ @getComments es_sample 3 ["p1"] st' = (Ok listed, st')
       /\ In (with_replies (with_id body "t2") []) listed.
Proof.
  intros comment body.
  assert (Hv : @CreateCommentArgSchema joi_sample comment = [])
    by reflexivity.
  assert (Hfuel : List.length (docs es1) + 1 < 3) by (simpl; lia).
  destruct (@createComment_null_spam_is_visible joi_sample es_sample env1
              comment es1 3 Hv eq_refl Hfuel) as [_ [Hap [Hsp [_ Hlist]]]].
  split; [exact Hv|]. split; [exact Hap|]. split; [exact Hsp|].
  exact (Hlist eq_refl).
Defined.

(** ** The service on the sample indices *)

(** An approved reply below a comment that is not approved goes with it. *)
Example filter_hides_approved_reply :
  filterNotApproved
    [node1 "a" true (Some [node1 "b" false (Some [node1 "c" true None]);
                           node1 "d" true None]);
     node1 "e" false None]
  = [node1 "a" true (Some [node1 "d" true (Some [])])].
Proof. reflexivity. Qed.

(** A reply to the reply of [t1], then a reply to that reply: the path
    ["t1",0,0] leads to the comment the first call made. *)
Example reply_to_second_level :
  exists r1 st1 r2 st2,
    @createComment joi_sample env1 (arg1 (path "t1" ",0") (JBool false)) es1
    = (Ok r1, st1)
    /\ @createComment joi_sample env2 (arg1 (path "t1" ",0,0") (JBool false))
         st1
       = (Ok r2, st2)
    /\ option_map comment_id (repliedToComment r2) = Some (uid env1)
    /\ option_map comment_id (newComment r2) = Some (uid env2)
    /\ List.length (docs st2) = 1.
Proof.
  do 4 eexists. split; [lazy; reflexivity|].
  split; [lazy; reflexivity|]. repeat split.
Qed.

(** A thread that is not in the index: the 404 of the client, no write. *)
Example reply_to_missing_thread :
  @createComment joi_sample env1 (arg1 (path "zz" ",0") (JBool false)) es1
  = (Throw (NotFound "zz"), es1).
Proof. reflexivity. Qed.

(** Post [p1] has three approved comments and one spam comment: the
    statistics count four, the listing shows three, oldest first. *)
Example stats_count_spam_listing_does_not :
  (exists stats,
      @getStats es_sample (mkStatsArg None (Some "p1") None) es5
      = (Ok stats, es5)
      /\ commentsCount stats = 4
      /\ map id (recentComments stats)
         = [Some "u2"; Some "u4"; Some "u1"; Some "u5"]
      /\ map (fun e => (Post.id (post e), comments_count e))
             (mostCommentedPosts stats)
         = [("p1", 4)])
  /\ exists listed,
       @getComments es_sample 3 ["p1"] es5 = (Ok listed, es5)
       /\ map id listed = [Some "u5"; Some "u1"; Some "u4"].
Proof.
  split.
  - eexists. split; [vm_compute; reflexivity|]. repeat split.
  - eexists. split; [vm_compute; reflexivity|]. reflexivity.
Qed.

Example stats_of_all_posts :
  exists stats,
    @getStats es_sample (mkStatsArg None None None) es5 = (Ok stats, es5)
    /\ map (fun e => (Post.id (post e), comments_count e))
           (mostCommentedPosts stats)
       = [("p1", 4); ("p2", 1)]
    /\ commentsByDate stats
       = [mkBucket "2019-05-01" 2; mkBucket "2019-05-03" 1;
          mkBucket "2019-05-02" 2].
Proof.
  eexists. split; [vm_compute; reflexivity|]. split; reflexivity.
Qed.

Example delete_twice :
  exists r1 st1 r2 st2,
    deletePostComments "p1" es5 = (Ok r1, st1)
    /\ prop r1 "deleted" = Some (RNum 4)
    /\ map _id (docs st1) = ["u3"]
    /\ deletePostComments "p1" st1 = (Ok r2, st2)
    /\ prop r2 "deleted" = Some (RNum 0)
    /\ docs st2 = docs st1.
Proof.
  do 4 eexists. split; [lazy; reflexivity|]. split; [reflexivity|].
  split; [reflexivity|]. split; [lazy; reflexivity|]. split; reflexivity.
Qed.

(** * Further properties of the service *)

(** ** createComment: what is rejected *)


Lemma createComment_not_found
        {joi : JoiLib} (env : Env) (comment : Arg.Comment) (st : ES)
        (s documentId : string) (repliesIndices : list Z) :
  CreateCommentArgSchema comment = [] ->
  Arg.recipient_path comment = JStr s ->
  parse_recipient_path s = Some (documentId, repliesIndices) ->
  find (has_id documentId) (docs st) = None ->
  createComment env comment st = (Throw (NotFound documentId), st).
Proof.
  intros Hv Hp Hparse Hfind.
  destruct (@valid_recipient_path joi comment Hv) as [Hn|[s' [Hs Hne]]];
    [congruence|].
  assert (s' = s) by congruence. subst s'.
  unfold createComment. rewrite Hv, Hp. simpl.
  apply String.eqb_neq in Hne. rewrite Hne. simpl. rewrite Hparse.
  unfold bind, es_get. now rewrite Hfind.
Qed.

(** X1.  A reply into a thread the index does not hold fails with the
    client's 404 and writes nothing. *)
Theorem createComment_missing_thread
        {joi : JoiLib} (env : Env) (comment : Arg.Comment) (st : ES)
        (s documentId : string) (repliesIndices : list Z) :
  CreateCommentArgSchema comment = [] ->
  Arg.recipient_path comment = JStr s ->
  parse_recipient_path s = Some (documentId, repliesIndices) ->
  find (has_id documentId) (docs st) = None ->
  createComment env comment st = (Throw (NotFound documentId), st).
Proof.
  apply createComment_not_found.
Qed.

Lemma createComment_missing_thread_witness :
  find (has_id "zz") (docs es1) = None
  /\ @createComment joi_sample env1 (arg1 (path "zz" ",0") (JBool false)) es1
     = (Throw (NotFound "zz"), es1).
Proof.
  split; [reflexivity|].
  apply (@createComment_missing_thread joi_sample env1
           (arg1 (path "zz" ",0") (JBool false)) es1
           (as_string (path "zz" ",0")) "zz" [0%Z]); reflexivity.
Defined.



(** X3.  The key [recipient_path] has to be there: an argument without
    it is rejected for that key, whatever its other keys hold, and
    nothing is written.  A new thread is asked for with null. *)
Theorem createComment_requires_recipient_path_key
        {joi : JoiLib} (env : Env) (comment : Arg.Comment) (st : ES) :
  Arg.recipient_path comment = JUndef ->
  createComment env comment st
  = (Throw (ValidationError [mkErrorItem ["recipient_path"] "any.required"]),
     st).
Proof.
  intro Hp.
  destruct (CreateCommentArgSchema comment) as [|e rest] eqn:Hv.
  - destruct (@valid_recipient_path joi comment Hv) as [Hn|[s [Hs _]]];
      congruence.
  - rewrite (@createComment_invalid joi env comment st e rest Hv).
    unfold CreateCommentArgSchema in Hv. rewrite Hp in Hv.
    simpl in Hv. now injection Hv as <- _.
Qed.

Lemma createComment_requires_recipient_path_key_witness :
  @createComment joi_sample env1 (arg1 JUndef (JBool false)) es1
  = (Throw (ValidationError [mkErrorItem ["recipient_path"] "any.required"]),
     es1).
Proof.
  apply (@createComment_requires_recipient_path_key joi_sample env1
           (arg1 JUndef (JBool false)) es1). reflexivity.
Defined.

(** ** createComment: what a call writes *)

Lemma replace_doc_other (i j : string) (doc : Comment) (l : list Hit) :
  j <> i ->
  find (has_id j) (map (replace_doc i doc) l) = find (has_id j) l.
Proof.
  intro Hne. induction l as [|x r IH]; simpl; [reflexivity|].
  unfold replace_doc at 1 2. destruct (has_id i x) eqn:Hx.
  - unfold has_id in *. simpl. apply String.eqb_eq in Hx.
    rewrite Hx, (proj2 (String.eqb_neq i j)) by congruence. exact IH.
  - now rewrite IH.
Qed.

Lemma find_append {A : Type} (t : A -> bool) (l l' : list A) :
  find t (l ++ l') = match find t l with
                     | Some x => Some x
                     | None => find t l'
                     end.
Proof.
  induction l as [|x r IH]; simpl; [reflexivity|].
  now destruct (t x).
Qed.

Lemma replace_doc_ids (i : string) (doc : Comment) (l : list Hit) :
  map _id (map (replace_doc i doc) l) = map _id l.
Proof.
  induction l as [|x r IH]; simpl; [reflexivity|].
  rewrite IH. f_equal. unfold replace_doc.
  destruct (has_id i x) eqn:Hx; [|reflexivity].
  unfold has_id in Hx. apply String.eqb_eq in Hx. now simpl.
Qed.

Lemma createComment_failure_state
      {joi : JoiLib} (env : Env) (comment : Arg.Comment)
      (st st' : ES) (o : outcome CreateResult) :
  createComment env comment st = (o, st') ->
  (forall r, o <> Ok r) -> st' = st.
Proof.
  intros Hrun Hfail. unfold createComment in Hrun.
  destruct (Joi_validate _ _); [now injection Hrun as _ <-|].
  destruct (truthy _).
  - destruct (parse_recipient_path _) as [[d idxs]|];
      [|now injection Hrun as _ <-].
    unfold bind, es_get in Hrun.
    destruct (find (has_id d) (docs st)) as [h|] eqn:Hfind;
      [|now injection Hrun as _ <-].
    simpl in Hrun. unfold lift in Hrun.
    destruct (follow (_source h) (node []) idxs) as [[|p]|e0|];
      try (now injection Hrun as _ <-).
    unfold es_update in Hrun. rewrite Hfind in Hrun.
    injection Hrun as <- _. now destruct (Hfail _ eq_refl).
  - injection Hrun as <- _. now destruct (Hfail _ eq_refl).
Qed.

(** X4.  A call of createComment that fails, for whatever reason,
    leaves the index as it was; a call that succeeds sends one writing
    request, keeps the threads in their order (a new thread comes
    last), and changes no thread but the one replied to. *)
Theorem createComment_writes_once_or_nothing
        {joi : JoiLib} (env : Env) (comment : Arg.Comment)
        (st st' : ES) (o : outcome CreateResult) :
  createComment env comment st = (o, st') ->
  match o with
  | Ok _ =>
      List.length (writes st') = S (List.length (writes st))
      /\ posts st' = posts st
      /\ (map _id (docs st') = map _id (docs st)
          \/ map _id (docs st') = map _id (docs st) ++ [new_id env])
      /\ exists target,
           forall j, j <> target ->
                     find (has_id j) (docs st') = find (has_id j) (docs st)
  | _ => st' = st
  end.
Proof.
  intro Hrun. destruct o as [r|e|].
  - destruct (@createComment_ok joi env comment st st' r Hrun)
      as [_ [[_ [_ ->]]|[d [p [root [_ ->]]]]]]; cbn [docs posts writes].
    + rewrite length_app, map_app. simpl.
      split; [lia|]. split; [reflexivity|]. split; [now right|].
      exists (new_id env). intros j Hj.
      rewrite find_append. destruct (find (has_id j) (docs st)); [reflexivity|].
      simpl. unfold has_id. simpl.
      now rewrite (proj2 (String.eqb_neq (new_id env) j)) by congruence.
    + rewrite length_app, replace_doc_ids. simpl.
      split; [lia|]. split; [reflexivity|]. split; [now left|].
      exists d. intros j Hj. now apply replace_doc_other.
  - now apply (@createComment_failure_state joi env comment st st' (Throw e)).
  - now apply (@createComment_failure_state joi env comment st st' OutOfFuel).
Qed.

Lemma createComment_writes_once_or_nothing_witness :
  exists r st',
    @createComment joi_sample env1 (arg1 (path "t1" ",0") (JBool false)) es1
    = (Ok r, st')
    /\ List.length (writes st') = 1
    /\ map _id (docs st') = ["t1"].
Proof.
  destruct (@createComment joi_sample env1
              (arg1 (path "t1" ",0") (JBool false)) es1) as [o st'] eqn:Hrun.
  pose proof (@createComment_writes_once_or_nothing joi_sample env1 _ es1 st'
                o Hrun) as H.
  destruct o as [r| |]; try (vm_compute in Hrun; discriminate Hrun).
  destruct H as [Hw [_ [Hids _]]].
  exists r, st'. split; [reflexivity|]. split; [exact Hw|].
  vm_compute in Hrun. injection Hrun as _ <-. reflexivity.
Defined.

(** ** createComment: the thread after a reply *)
















(** ** createComment and the listing *)

Lemma find_in {A : Type} (t : A -> bool) (l : list A) (x : A) :
  find t l = Some x -> In x l.
Proof. intro H. now apply find_some in H. Qed.

(** X7.  A reply to the root of a thread the listing shows, made with a
    [spam] that is false or null, is shown by the listing made after
    it: the root is listed with the replies the filter kept before and,
    last, the new comment. *)
Theorem reply_to_listed_root_is_listed
        {joi : JoiLib} {es : EsLib} (env : Env) (comment : Arg.Comment)
        (st : ES) (s documentId : string) (h : Hit) (fuel : nat)
        (postIds : list string) :
  CreateCommentArgSchema comment = [] ->
  Arg.recipient_path comment = JStr s ->
  parse_recipient_path s = Some (documentId, []) ->
  find (has_id documentId) (docs st) = Some h ->
  matches (listing_query postIds) h = true ->
  truthy (Arg.spam comment) = false ->
  List.length (docs st) < fuel ->
  exists r st' listed,
    createComment env comment st = (Ok r, st')
    /\ getComments fuel postIds st' = (Ok listed, st')
    /\ In (with_replies (with_id (_source h) documentId)
             (filterNotApproved (replies_or_empty (_source h))
              ++ [with_replies (make_body env comment) []]))
          listed.
Proof.
  intros Hv Hp Hparse Hfind Hmatch Hspam Hfuel.
  destruct (@createComment_reply joi env comment st s documentId
              [] h Hv Hp Hparse Hfind (_source h) eq_refl) as [Hrun _].
  cbn [map modify] in Hrun.
  set (body := make_body env comment) in *.
  set (root' := push_reply body (_source h)) in *.
  do 3 eexists. split; [exact Hrun|]. split.
  - apply getComments_all. cbn [docs]. now rewrite length_map.
  - cbn [docs].
    assert (Hap : approved body = true).
    { unfold body, make_body, js_not. simpl. now rewrite Hspam. }
    assert (Hroot : approved root' = true).
    { unfold listing_query, matches in Hmatch.
      cbn [forallb clause_matches] in Hmatch.
      apply andb_prop in Hmatch. destruct Hmatch as [_ Hm].
      apply andb_prop in Hm. destruct Hm as [Hm _].
      now apply eqb_prop in Hm. }
    replace (with_replies (with_id (_source h) documentId)
               (filterNotApproved (replies_or_empty (_source h))
                ++ [with_replies body []]))
      with (filterNode (hit_comment (mkHit documentId root'))).
    + apply filterNotApproved_in; [|exact Hroot].
      apply in_map.
      apply (Permutation_in _ (Permutation_sym (sort_hits_perm (Some asc) _))).
      apply filter_In. split.
      * apply find_in with (t := has_id documentId).
        now apply find_replace_doc with (h := h).
      * exact Hmatch.
    + rewrite filterNode_unfold.
      change (replies_or_empty (hit_comment (mkHit documentId root')))
        with (replies_or_empty (_source h) ++ [body]).
      rewrite filterNotApproved_app, (filterNotApproved_cons body []), Hap.
      reflexivity.
Qed.

Lemma reply_to_listed_root_is_listed_witness :
  exists r st' listed,
    @createComment joi_sample env1 (arg1 (path "t1" "") JNull) es1
    = (Ok r, st')
    /\ @getComments es_sample 2 ["p1"] st' = (Ok listed, st')
    /\ In (with_replies (with_id root1 "t1")
             [with_replies reply1 [];
              with_replies (make_body env1 (arg1 (path "t1" "") JNull)) []])
          listed.
Proof.
  apply (@reply_to_listed_root_is_listed joi_sample es_sample env1
           (arg1 (path "t1" "") JNull) es1 (as_string (path "t1" "")) "t1"
           (mkHit "t1" root1) 2 ["p1"]); try reflexivity.
  simpl. lia.
Defined.

(** ** deleteComment *)

Lemma find_filter_not_id (i j : string) (l : list Hit) :
  find (has_id j) (filter (fun h => negb (has_id i h)) l)
  = if String.eqb j i then None else find (has_id j) l.
Proof.
  induction l as [|x r IH]; simpl; [now destruct (String.eqb j i)|].
  destruct (has_id i x) eqn:Hx; simpl; rewrite IH.
  - destruct (String.eqb j i) eqn:Hj; [reflexivity|].
    unfold has_id in *. apply String.eqb_eq in Hx. rewrite Hx.
    now rewrite String.eqb_sym, Hj.
  - destruct (has_id j x) eqn:Hjx; [|reflexivity].
    unfold has_id in *. apply String.eqb_eq in Hjx. subst j.
    now rewrite Hx.
Qed.

(** X8.  deleteComment takes the thread of the given id out of the
    index, its replies with it, and no other thread; asked again for
    the same id it fails with the client's 404, and so does a reply
    into the thread. *)
Theorem deleteComment_removes_thread
        {joi : JoiLib} (id : string) (st : ES) (h : Hit)
        (env : Env) (comment : Arg.Comment) (s : string)
        (repliesIndices : list Z) :
  find (has_id id) (docs st) = Some h ->
  CreateCommentArgSchema comment = [] ->
  Arg.recipient_path comment = JStr s ->
  parse_recipient_path s = Some (id, repliesIndices) ->
  exists r st',
    deleteComment id st = (Ok r, st')
    /\ find (has_id id) (docs st') = None
    /\ (forall j, j <> id ->
                  find (has_id j) (docs st') = find (has_id j) (docs st))
    /\ deleteComment id st' = (Throw (NotFound id), st')
    /\ createComment env comment st' = (Throw (NotFound id), st').
Proof.
  intros Hfind Hv Hp Hparse.
  unfold deleteComment, es_delete. rewrite Hfind.
  do 2 eexists. split; [reflexivity|]. cbn [docs].
  assert (Hgone : find (has_id id)
                    (filter (fun h0 => negb (has_id id h0)) (docs st)) = None).
  { now rewrite find_filter_not_id, String.eqb_refl. }
  split; [exact Hgone|]. split.
  - intros j Hj. rewrite find_filter_not_id.
    now rewrite (proj2 (String.eqb_neq j id)) by assumption.
  - rewrite Hgone. split; [reflexivity|].
    now apply (@createComment_not_found joi env comment _ s id
                 repliesIndices).
Qed.

Lemma deleteComment_removes_thread_witness :
  exists r st',
    deleteComment "t1" es1 = (Ok r, st')
    /\ docs st' = []
    /\ deleteComment "t1" st' = (Throw (NotFound "t1"), st')
    /\ @createComment joi_sample env1 (arg1 (path "t1" ",0") (JBool false)) st'
       = (Throw (NotFound "t1"), st').
Proof.
  destruct (@deleteComment_removes_thread joi_sample "t1" es1
              (mkHit "t1" root1) env1 (arg1 (path "t1" ",0") (JBool false))
              (as_string (path "t1" ",0")) [0%Z]
              eq_refl eq_refl eq_refl eq_refl)
    as [r [st' [Hrun [_ [_ [Hagain Hreply]]]]]].
  exists r, st'. split; [exact Hrun|].
  split; [|split; [exact Hagain|exact Hreply]].
  vm_compute in Hrun. injection Hrun as _ <-. reflexivity.
Defined.


(** ** The listing *)

Lemma listing_query_post (postIds : list string) (h : Hit) :
  matches (listing_query postIds) h = true ->
  mem_string (post_id (_source h)) postIds = true
  /\ approved (_source h) = true
  /\ term_bool (spam (_source h)) true = false.
Proof.
  unfold listing_query, matches. cbn [forallb clause_matches].
  intro H. apply andb_prop in H. destruct H as [H1 H].
  apply andb_prop in H. destruct H as [H2 H].
  apply andb_prop in H. destruct H as [H3 _].
  split; [exact H1|]. split; [now apply eqb_prop in H2|].
  now apply negb_true_iff in H3.
Qed.

(** X9.  Whatever getComments lists, with whatever fuel: every root
    listed belongs to one of the posts asked for, has an [id], is
    approved and does not have [spam: true], and every node below it is
    approved.  Asked for no post, it lists nothing. *)
Theorem getComments_lists_approved_threads_of_the_posts
        {es : EsLib} (fuel : nat) (postIds : list string) (st st' : ES)
        (listed : list Comment) :
  getComments fuel postIds st = (Ok listed, st') ->
  Forall (fun c =>
            mem_string (post_id c) postIds = true
            /\ id c <> None
            /\ term_bool (spam c) true = false
            /\ every_node approved c = true) listed
  /\ (postIds = [] -> listed = []).
Proof.
  intro Hrun. apply getComments_ok in Hrun. subst listed. split.
  - apply Forall_forall. intros c Hc. unfold filterNotApproved in Hc.
    apply in_map_iff in Hc. destruct Hc as [y [<- Hy]].
    apply filter_In in Hy. destruct Hy as [Hy Hap].
    apply in_map_iff in Hy. destruct Hy as [h [<- Hh]].
    apply (Permutation_in _ (sort_hits_perm (Some asc) _)) in Hh.
    apply filter_In in Hh. destruct Hh as [_ Hm].
    apply listing_query_post in Hm. destruct Hm as [Hpost [_ Hspam]].
    rewrite filterNode_approved, (filterNode_unfold (hit_comment h)).
    cbn. repeat split; try assumption. discriminate.
  - intros ->.
    assert (Hn : filter (matches (listing_query [])) (docs st) = []).
    { induction (docs st) as [|x r IH]; [reflexivity|]. simpl. exact IH. }
    now rewrite Hn.
Qed.

Lemma getComments_lists_approved_threads_of_the_posts_witness :
  exists listed,
    @getComments es_sample 3 ["p1"] es5 = (Ok listed, es5)
    /\ Forall (fun c => mem_string (post_id c) ["p1"] = true
                        /\ id c <> None
                        /\ term_bool (spam c) true = false
                        /\ every_node approved c = true) listed.
Proof.
  destruct (@getComments es_sample 3 ["p1"] es5) as [o st'] eqn:Hrun.
  destruct o as [listed| |]; try (vm_compute in Hrun; discriminate Hrun).
  destruct (@getComments_lists_approved_threads_of_the_posts es_sample 3
              ["p1"] es5 st' listed Hrun) as [H _].
  exists listed. split; [|exact H].
  f_equal. vm_compute in Hrun. now injection Hrun as _ <-.
Defined.

(** X10.  Once deletePostComments has run for a post, the listing of
    that post is empty. *)
Theorem deletePostComments_empties_listing
        {es : EsLib} (post : string) (st : ES) (fuel : nat) :
  exists r st',
    deletePostComments post st = (Ok r, st')
    /\ getComments (S fuel) [post] st' = (Ok [], st').
Proof.
  unfold deletePostComments, es_deleteByQuery.
  do 2 eexists. split; [reflexivity|].
  unfold getComments, bind at 1. fold (listing_query [post]).
  rewrite es_search_scroll. cbn [docs].
  assert (Hn : filter (matches (listing_query [post]))
                 (filter (fun h => negb (matches (bool_filter [term_post_id post]) h))
                         (docs st)) = []).
  { induction (docs st) as [|x r IH]; [reflexivity|].
    cbn [filter]. rewrite matches_term_post_id.
    destruct (has_post post x) eqn:Hx; cbn [negb]; [exact IH|].
    cbn [filter]. rewrite IH.
    unfold listing_query, matches. cbn [forallb clause_matches].
    unfold mem_string. cbn [existsb]. unfold has_post in Hx.
    now rewrite Hx. }
  rewrite Hn. reflexivity.
Qed.

(** ** Reading does not write *)

Lemma scroll_all_reads (fuel : nat) :
  forall (resp : SearchResponse) (acc : list Hit) (st st' : ES)
         (o : outcome (list Hit)),
    scroll_all fuel resp acc st = (o, st') -> st' = st.
Proof.
  induction fuel as [|fuel IH]; intros resp acc st st' o.
  - now intros [= _ <-].
  - rewrite scroll_all_step. destruct (hits resp) as [|x r].
    + now intros [= _ <-].
    + unfold bind, es_scroll. destruct (_scroll_id resp) as [c|].
      * unfold ret. apply IH.
      * now intros [= _ <-].
Qed.

(** What getStats answers with, but for the posts it looks up. *)
Lemma getStats_shape {es : EsLib} (a : StatsArg) (st : ES) :
  let matching := filter (matches (stats_query a)) (docs st) in
  exists entries,
    getStats a st
    = (Ok (mkStats
             (date_histogram
                (match interval a with Some i => i | None => "1d" end)
                (map (fun h => published_at (_source h)) matching))
             entries
             (map hit_comment (firstn 10 (sort_hits (Some desc) matching)))
             (List.length matching)),
       st).
Proof.
  intro matching.
  unfold getStats. unfold bind at 1. unfold es_count. cbv beta iota.
  unfold bind at 1. rewrite es_search_stats. cbv beta iota.
  fold matching. unfold getStats_result, run_aggs.
  cbn [aggregations post_ids comments_histogram hits post_ids_size
       comments_histogram_interval].
  set (bs := terms_post_id_agg 5 matching).
  destruct (found_posts (map key bs) st) as [ps [Hps [_ Hall]]].
  unfold bind at 1. rewrite Hps.
  destruct (counted_posts bs Hall) as [entries [Hes _]].
  unfold bind, lift. rewrite Hes. unfold ret.
  now exists entries.
Qed.

(** X11.  getComments, getAllComments and getStats send no writing
    request and leave the index as it is, however they end. *)
Theorem reading_leaves_the_index
        {es : EsLib} (fuel : nat) (postIds : list string) (a : StatsArg)
        (st : ES) :
  snd (getComments fuel postIds st) = st
  /\ snd (getAllComments fuel st) = st
  /\ snd (getStats a st) = st.
Proof.
  split; [|split].
  - unfold getComments, bind at 1. fold (listing_query postIds).
    rewrite es_search_scroll. unfold bind.
    destruct (scroll_all fuel _ [] st) as [o st'] eqn:Hrun.
    apply scroll_all_reads in Hrun. subst st'. now destruct o.
  - unfold getAllComments, bind at 1.
    rewrite es_search_scroll. unfold bind.
    destruct (scroll_all fuel _ [] st) as [o st'] eqn:Hrun.
    apply scroll_all_reads in Hrun. subst st'. now destruct o.
  - destruct (getStats_shape a st) as [entries ->]. reflexivity.
Qed.

(** ** getStats: the count and the recent comments *)

Lemma stats_query_post (a : StatsArg) (p : string) (h : Hit) :
  postId a = Some p -> p <> "" ->
  matches (stats_query a) h = true -> post_id (_source h) = p.
Proof.
  intros Hp Hne. unfold stats_query, given. rewrite Hp.
  apply String.eqb_neq in Hne. rewrite Hne. cbn [negb app].
  unfold matches. cbn [forallb clause_matches].
  intro H. apply andb_prop in H. destruct H as [H _].
  now apply String.eqb_eq in H.
Qed.

Lemma stats_query_all (a : StatsArg) (l : list Hit) :
  given (postId a) = false -> given (startDate a) = false ->
  filter (matches (stats_query a)) l = l.
Proof.
  intros Hp Hd. unfold stats_query. rewrite Hp, Hd. simpl.
  induction l as [|x r IH]; simpl; [reflexivity|]. now rewrite IH.
Qed.

(** X12.  getStats counts every comment thread that matches its
    filter, approved or not, and both numbers come from the one filter:
    [recentComments] has ten entries or, when fewer match, as many as
    [commentsCount] says; with a [postId] they all belong to that post;
    without [postId] and [startDate] (or with empty ones) the count is
    that of all documents of the index. *)
Theorem getStats_counts_every_match
        {es : EsLib} (a : StatsArg) (st : ES) :
  exists stats,
    getStats a st = (Ok stats, st)
    /\ commentsCount stats
       = List.length (filter (matches (stats_query a)) (docs st))
    /\ List.length (recentComments stats) = Nat.min 10 (commentsCount stats)
    /\ (forall p, postId a = Some p -> p <> "" ->
                  Forall (fun c => post_id c = p) (recentComments stats))
    /\ (given (postId a) = false -> given (startDate a) = false ->
        commentsCount stats = List.length (docs st)).
Proof.
  destruct (getStats_shape a st) as [entries Hrun].
  eexists. split; [exact Hrun|]. cbn [commentsCount recentComments].
  split; [reflexivity|]. split.
  - rewrite length_map, length_firstn.
    now rewrite (Permutation_length (sort_hits_perm (Some desc) _)).
  - split.
    + intros p Hp Hne. apply Forall_forall. intros c Hc.
      apply in_map_iff in Hc. destruct Hc as [h [<- Hh]].
      apply firstn_in in Hh.
      apply (Permutation_in _ (sort_hits_perm (Some desc) _)) in Hh.
      apply filter_In in Hh. destruct Hh as [_ Hm].
      now apply (@stats_query_post a p h Hp Hne).
    + intros Hp Hd. now rewrite stats_query_all.
Qed.

(** ** The filter, once more *)

Lemma filter_approved_filtered (l : list Comment) :
  filter approved (map filterNode (filter approved l))
  = map filterNode (filter approved l).
Proof.
  induction l as [|x r IH]; simpl; [reflexivity|].
  destruct (approved x) eqn:Hx; [|exact IH].
  simpl. rewrite (filterNode_unfold x).
  change (approved (with_replies x _)) with (approved x).
  rewrite Hx, <- (filterNode_unfold x). now f_equal.
Qed.

Lemma filterNode_idempotent (c : Comment) :
  filterNode (filterNode c) = filterNode c.
Proof.
  induction c as [c IH] using Comment_nested_ind.
  rewrite (filterNode_unfold c), filterNode_unfold.
  change (replies_or_empty (with_replies c ?l)) with l.
  unfold with_replies; simpl. f_equal.
  unfold filterNotApproved at 1 2.
  rewrite filter_approved_filtered, map_map.
  unfold filterNotApproved. f_equal. apply map_ext_in. intros x Hx.
  apply filter_In in Hx. rewrite Forall_forall in IH. now apply IH.
Qed.

(** X13.  Filtering what the filter gave changes nothing. *)
Theorem filterNotApproved_idempotent (comments : list Comment) :
  filterNotApproved (filterNotApproved comments) = filterNotApproved comments.
Proof.
  unfold filterNotApproved at 1 2.
  rewrite filter_approved_filtered, map_map.
  unfold filterNotApproved. apply map_ext. intro c. apply filterNode_idempotent.
Qed.

Lemma filterNode_keeps_ids (c : Comment) :
  every_node approved c = true -> tree_ids (filterNode c) = tree_ids c.
Proof.
  induction c as [c IH] using Comment_nested_ind.
  rewrite every_node_unfold, filterNode_unfold.
  rewrite (tree_ids_unfold (with_replies c _)), (tree_ids_unfold c).
  change (comment_id (with_replies c _)) with (comment_id c).
  change (replies_or_empty (with_replies c ?l)) with l.
  intro H. apply andb_prop in H. destruct H as [_ H]. f_equal.
  rewrite Forall_forall in IH. rewrite forallb_forall in H.
  induction (replies_or_empty c) as [|x r IHr]; [reflexivity|].
  rewrite filterNotApproved_cons, forest_ids_app, forest_ids_cons.
  assert (Hx : every_node approved x = true) by (apply H; now left).
  pose proof Hx as Hx'. rewrite every_node_unfold in Hx'.
  apply andb_prop in Hx'. destruct Hx' as [-> _].
  unfold forest_ids at 1. cbn [flat_map]. rewrite app_nil_r.
  rewrite <- (filterNode_unfold x), (IH x (or_introl eq_refl) Hx).
  f_equal. apply IHr.
  - intros y Hy. apply IH. now right.
  - intros y Hy. apply H. now right.
Qed.

(** X14.  Of threads in which every comment is approved the filter
    drops none: the comment ids of its answer are those handed in, in
    the same order. *)
Theorem filterNotApproved_keeps_approved_threads (comments : list Comment) :
  forallb (every_node approved) comments = true ->
  forest_ids (filterNotApproved comments) = forest_ids comments.
Proof.
  intro H. rewrite forallb_forall in H.
  induction comments as [|x r IH]; [reflexivity|].
  rewrite filterNotApproved_cons, forest_ids_app, forest_ids_cons.
  assert (Hx : every_node approved x = true) by (apply H; now left).
  pose proof Hx as Hx'. rewrite every_node_unfold in Hx'.
  apply andb_prop in Hx'. destruct Hx' as [-> _].
  unfold forest_ids at 1. cbn [flat_map]. rewrite app_nil_r.
  rewrite <- (filterNode_unfold x), (filterNode_keeps_ids x Hx).
  f_equal. apply IH. intros y Hy. apply H. now right.
Qed.

Lemma filterNotApproved_keeps_approved_threads_witness :
  forest_ids (filterNotApproved [root1]) = ["c0"; "c1"].
Proof.
  rewrite (filterNotApproved_keeps_approved_threads [root1]); reflexivity.
Defined.

(** * The configuration and the import route *)

(** ** lodash: get after set *)















(** ** config.js: one override *)







(** ** config.js: the table of overrides *)


















(** ** config.js: initConfig *)





Lemma trimEnd_text_end (chars : string) (c : ascii) :
  char_in c chars = true ->
  forall s t, trimEnd_text s chars <> String.append t (String c EmptyString).
Proof.
  intros Hc s. induction s as [|a r IH]; intros t; simpl.
  - now destruct t.
  - destruct (trimEnd_text r chars) as [|a' r'] eqn:Hr.
    + destruct (char_in a chars) eqn:Ha; [now destruct t|].
      destruct t as [|b [|b' t]]; simpl; try discriminate.
      intros [= ->]. congruence.
    + destruct t as [|b t]; simpl; [discriminate|].
      intros [= -> Ht]. now apply (IH t).
Qed.




Lemma initConfig_routes_example :
  exists final blog',
    @initConfig util_sample penv1 yaml1 = inr final
    /\ own final "blog" = Object blog'
    /\ field "blog.admin-route" blog' = Some (Scalar (JStr "/manage"))
    /\ field "admin-route" blog' = Some (Scalar (JStr "/manage/"))
    /\ field "blog-route-prefix" blog' = Some (Scalar (JStr "")).
Proof.
  do 2 eexists. split; [vm_compute; reflexivity|]. repeat split.
Qed.

(** ** The import route *)

Lemma endsWith_refl (s : string) : endsWith s s = true.
Proof. destruct s; simpl; now rewrite ?String.eqb_refl, ?Ascii.eqb_refl. Qed.

Lemma endsWith_append (s suffix : string) :
  endsWith (String.append s suffix) suffix = true.
Proof.
  induction s as [|c r IH]; simpl.
  - apply endsWith_refl.
  - rewrite IH. apply orb_true_r.
Qed.

Lemma trimEnd_text_slash (s : string) :
  trimEnd_text (String.append s "/") "/" = trimEnd_text s "/".
Proof.
  induction s as [|c r IH]; [reflexivity|].
  cbn [String.append trimEnd_text]. now rewrite IH.
Qed.

(** X19.  The address the import fetches always ends in [.json]: it is
    the address given, slashes taken off its end, as it is when that
    already ends in [.json] and with [.json] added when not.  The
    canonical address recorded has no slash at its end, and one slash
    more at the end of what is given changes neither address. *)
Theorem import_urls_json_address (body_url : json) (s : string) :
  let url := fst (import_urls body_url) in
  let jsonUrl := snd (import_urls body_url) in
  endsWith jsonUrl ".json" = true
  /\ (forall t, url <> String.append t "/")
  /\ jsonUrl = (if endsWith url ".json" then url
                else String.append url ".json")
  /\ import_urls (Scalar (JStr (String.append s "/")))
     = import_urls (Scalar (JStr s)).
Proof.
  unfold import_urls. cbn [fst snd]. split; [|split; [|split]].
  - destruct (endsWith (trimEnd body_url "/") ".json") eqn:He;
      [exact He|apply endsWith_append].
  - apply trimEnd_text_end. reflexivity.
  - reflexivity.
  - unfold trimEnd. cbn [toString]. now rewrite trimEnd_text_slash.
Qed.
